(** * Replikit CLI: the project orchestrator ([ProjectManager])

    A shallow embedding of [packages/cli/src/project/projectManager.ts].
    Asynchronous methods become computations in a state-and-exception
    monad over the file system and the fields of the [ProjectManager]
    object; every [await] is a sequencing point and every rejected
    promise an exception that propagates to the caller (the class has no
    [try]/[catch]).  The method [load] is left out: it only calls
    [getConfigPath] and [getPMController], whose code is elsewhere. *)

From Stdlib Require Import Ascii String.
From stdpp Require Import gmap strings list fin_maps pretty.

Local Open Scope string_scope.

(** ** Node's [path] module (POSIX flavour)

    Paths are strings; the functions below follow [path.posix] of
    Node.js: segments are separated by ["/"], empty segments and ["."]
    are dropped and [".."] removes the segment before it. *)
Module Path.

Definition slash : ascii := "/"%char.

(** [split s] cuts [s] at every ["/"]; like [s.split("/")]. *)
Fixpoint split_go (cur : string) (s : string) : list string :=
  match s with
  | EmptyString => [String.rev cur]
  | String c s' =>
      if Ascii.eqb c slash then String.rev cur :: split_go "" s'
      else split_go (String c cur) s'
  end.

Definition split (s : string) : list string := split_go "" s.

Definition isAbsolute (s : string) : bool :=
  match s with
  | String c _ => Ascii.eqb c slash
  | EmptyString => false
  end.

Fixpoint join_with (sep : string) (l : list string) : string :=
  match l with
  | [] => ""
  | [x] => x
  | x :: l' => x ++ sep ++ join_with sep l'
  end.

(** [normalizeString]: the accumulator [res] holds the segments kept
    so far, the last one first. *)
Fixpoint normalize_go (allowAboveRoot : bool) (res : list string)
    (segs : list string) : list string :=
  match segs with
  | [] => rev res
  | seg :: segs' =>
      if String.eqb seg "" || String.eqb seg "." then
        normalize_go allowAboveRoot res segs'
      else if String.eqb seg ".." then
        match res with
        | last :: res' =>
            if String.eqb last ".." then
              normalize_go allowAboveRoot (".." :: res) segs'
            else normalize_go allowAboveRoot res' segs'
        | [] =>
            if allowAboveRoot then normalize_go allowAboveRoot [".."] segs'
            else normalize_go allowAboveRoot [] segs'
        end
      else normalize_go allowAboveRoot (seg :: res) segs'
  end.

Definition normalizeString (path : string) (allowAboveRoot : bool) : string :=
  join_with "/" (normalize_go allowAboveRoot [] (split path)).

Fixpoint endsWithSlash (s : string) : bool :=
  match s with
  | EmptyString => false
  | String c EmptyString => Ascii.eqb c slash
  | String _ s' => endsWithSlash s'
  end.

Definition normalize (path : string) : string :=
  if String.eqb path "" then "."
  else
    let abs := isAbsolute path in
    let trailing := endsWithSlash path in
    let p := normalizeString path (negb abs) in
    if String.eqb p "" then
      if abs then "/" else if trailing then "./" else "."
    else
      let p := if trailing then p ++ "/" else p in
      if abs then "/" ++ p else p.

(** [path.join(...args)] *)
Definition join (args : list string) : string :=
  match filter (λ a, a ≠ "") args with
  | [] => "."
  | parts => normalize (join_with "/" parts)
  end.

(** [path.resolve(...args)], with the working directory of the
    process as an explicit argument.  The loop of the library runs
    over the arguments from the last one to the first and then over
    [cwd], until an absolute one has been prepended. *)
Fixpoint resolve_go (rargs : list string) (resolvedPath : string)
    : string * bool :=
  match rargs with
  | [] => (resolvedPath, false)
  | path :: rest =>
      if String.eqb path "" then resolve_go rest resolvedPath
      else
        let resolvedPath := path ++ "/" ++ resolvedPath in
        if isAbsolute path then (resolvedPath, true)
        else resolve_go rest resolvedPath
  end.

Definition resolve (cwd : string) (args : list string) : string :=
  let '(resolvedPath, resolvedAbsolute) := resolve_go (rev args ++ [cwd]) "" in
  let p := normalizeString resolvedPath (negb resolvedAbsolute) in
  if resolvedAbsolute then "/" ++ p
  else if String.eqb p "" then "." else p.

(** [path.basename(path)]: the last segment, trailing separators
    ignored. *)
Definition basename (path : string) : string :=
  List.last (filter (λ a, a ≠ "") (split path)) "".

(** The segments of the absolute location a path denotes for the
    file system calls of a process running in [cwd]. *)
Definition segments (cwd : string) (path : string) : list string :=
  normalize_go false [] (split (if isAbsolute path then path else cwd ++ "/" ++ path)).

End Path.

(** ** JSON documents

    The values [JSON.parse] produces.  An object is a finite map from
    property names to values (the code uses objects as maps only); a
    number is kept as the text JavaScript prints for it, the only thing
    the code ever does with one. *)
#[warnings="-register-all"] Inductive JSON : Type :=
  | JNull
  | JBool (b : bool)
  | JNum (repr : string)
  | JStr (s : string)
  | JArr (items : list JSON)
  | JObj (props : gmap string JSON).

Module JS.

(** Property read [v.key] on a parsed value that is not [null]:
    [None] is [undefined].  Only the names ["name"],
    ["compilerOptions"] and ["paths"] are ever read, none of which a
    string, an array or a prototype provides. *)
Definition get (key : string) (v : JSON) : option JSON :=
  match v with
  | JObj props => props !! key
  | _ => None
  end.

(** [ToString], as applied by a template literal.  An array prints
    its items separated by commas, with [null] items left empty; an
    object prints as [Object.prototype.toString] does (a document
    that shadows [toString] with a property of its own is not
    modelled). *)
Fixpoint toString (v : JSON) : string :=
  match v with
  | JNull => "null"
  | JBool true => "true"
  | JBool false => "false"
  | JNum repr => repr
  | JStr s => s
  | JArr items =>
      Path.join_with ","
        (map (λ x, match x with JNull => "" | _ => toString x end) items)
  | JObj _ => "[object Object]"
  end.

Definition toStringOpt (v : option JSON) : string :=
  match v with
  | Some v => toString v
  | None => "undefined"
  end.

(** The characters a string is indexed by.  Strings are UTF-8 text,
    and JavaScript indexes a string by UTF-16 code unit: one unit for
    a character of one, two or three bytes, and two units (a surrogate
    pair) for a character of four.  A lone surrogate is kept as the
    three bytes of its code; a byte that starts no character is a unit
    of its own. *)
Definition code (c : ascii) : N := N_of_ascii c.

Definition continuation (c : ascii) : bool :=
  ((128 <=? code c) && (code c <? 192))%N.

Definition leads (n : N) (c : ascii) : bool :=
  match n with
  | 2%N => ((192 <=? code c) && (code c <? 224))%N
  | 3%N => ((224 <=? code c) && (code c <? 240))%N
  | _ => ((240 <=? code c) && (code c <? 248))%N
  end.

Definition unit_string (u : N) : string :=
  String (ascii_of_N (224 + u / 4096))
    (String (ascii_of_N (128 + (u / 64) mod 64))
       (String (ascii_of_N (128 + u mod 64)) EmptyString)).

Definition code_point (b0 b1 b2 b3 : ascii) : N :=
  ((code b0 mod 8) * 262144 + (code b1 mod 64) * 4096
   + (code b2 mod 64) * 64 + code b3 mod 64)%N.

Definition high_surrogate (cp : N) : N := (55296 + (cp - 65536) / 1024)%N.
Definition low_surrogate (cp : N) : N := (56320 + (cp - 65536) mod 1024)%N.

Fixpoint chars (s : string) : list string :=
  match s with
  | EmptyString => []
  | String b0 s1 =>
      let single := String b0 "" :: chars s1 in
      match s1 with
      | String b1 s2 =>
          if leads 2 b0 && continuation b1 then
            String b0 (String b1 "") :: chars s2
          else
            match s2 with
            | String b2 s3 =>
                if leads 3 b0 && continuation b1 && continuation b2 then
                  String b0 (String b1 (String b2 "")) :: chars s3
                else
                  match s3 with
                  | String b3 s4 =>
                      if leads 4 b0 && continuation b1 && continuation b2
                         && continuation b3 then
                        let cp := code_point b0 b1 b2 b3 in
                        unit_string (high_surrogate cp)
                        :: unit_string (low_surrogate cp) :: chars s4
                      else single
                  | EmptyString => single
                  end
            | EmptyString => single
            end
      | EmptyString => single
      end
  end.

Definition indexed (l : list JSON) : gmap string JSON :=
  list_to_map (imap (λ i x, (pretty i, x)) l).

(** The own enumerable properties an object spread [{...v}] copies:
    nothing for [undefined], [null], booleans and numbers, the
    indexed items for an array and the indexed characters for a
    string. *)
Definition spread (v : option JSON) : gmap string JSON :=
  match v with
  | Some (JObj props) => props
  | Some (JArr items) => indexed items
  | Some (JStr s) => indexed (JStr <$> chars s)
  | _ => ∅
  end.

End JS.

(** ** Errors

    Nothing is caught inside the class: a rejected promise or a thrown
    exception ends the method. *)
Inductive Errno : Type := ENOENT | EEXIST | ENOTDIR | EISDIR.

Inductive Error : Type :=
  | FileSystemError (code : Errno) (path : string)
  | SyntaxError (path : string)
  | TypeError
  | PackageManagerError
  | ManifestExistsError.

Inductive Result (A : Type) : Type :=
  | Ok (a : A)
  | Throw (e : Error).
Arguments Ok {A} a.
Arguments Throw {A} e.

(** ** The file system

    A file system maps the segments of an absolute location to what is
    there.  A file holds either a JSON document (what [writeJSON]
    writes and [readJSON] parses back) or text that is not one.
    Locations are taken lexically against the working directory; the
    root directory always exists. *)
Inductive Content : Type :=
  | Json (doc : JSON)
  | Text (text : string).

Inductive Node : Type :=
  | Dir
  | File (content : Content).

Abbreviation FS := (gmap (list string) Node).

Definition node_at (files : FS) (loc : list string) : option Node :=
  match loc with
  | [] => Some Dir
  | _ => files !! loc
  end.

Definition parent (loc : list string) : list string := removelast loc.

Definition child_of (loc : list string) (k : list string) : Prop :=
  k ≠ [] ∧ parent k = loc.

#[global] Instance child_of_dec loc k : Decision (child_of loc k).
Proof. unfold child_of. apply _. Defined.

(** The names listed by a directory: the last segment of every
    location one level below it. *)
Definition children (files : FS) (loc : list string) : list string :=
  (λ k, List.last k "") <$> filter (child_of loc) (map_to_list files).*1.

(** The mutations a method performs, in the order they complete. *)
Inductive Event : Type :=
  | EnsureDir (path : string)
  | Mkdir (path : string)
  | WriteJSON (path : string) (doc : JSON)
  | WriteFile (path : string) (text : string).

(** ** Collaborators of the orchestrator *)

Inductive PMType : Type := Npm | Yarn.

#[global] Instance PMType_eq_dec : EqDecision PMType.
Proof. solve_decision. Defined.

(** Modelled from the spec: the package manifest
    [{ name, private, dependencies, devDependencies }] of section 6
    (the [PackageConfig] typing is not part of the sources). *)
Record PackageConfig : Type := {
  name : string;
  private : bool;
  dependencies : gmap string string;
  devDependencies : gmap string string
}.

(** Modelled from the spec: the state of a [PMController] (section 3,
    PackageManifestState): the variant, the directory it manages and
    the manifest held in memory, absent until [init] creates it. *)
Record PMController : Type := {
  pm_type : PMType;
  pm_root : string;
  pm_manifest : option PackageConfig
}.

(** Modelled from the spec: the [ConfigManager] owns the declared-module
    set (section 4.2), here the list of declared names in insertion
    order. *)
Record ConfigManager : Type := {
  modules : list string
}.

(** The arguments [getModule] hands to [new ModuleManager(this, name,
    this.pm.type)]. *)
Record ModuleManager : Type := {
  project_root : string;
  module_name : string;
  module_pm : PMType
}.

(** ** State

    The file system, the log of mutations, and the mutable fields of
    the [ProjectManager] instance ([pm] and [configPath] are
    [undefined] until [setPackageManager], [init] or [load] assign
    them). *)
Record State : Type := {
  fs : FS;
  log : list Event;
  configManager : ConfigManager;
  pm : option PMController;
  configPath : option string
}.

Definition set_fs (files : FS) (s : State) : State :=
  {| fs := files; log := log s; configManager := configManager s;
     pm := pm s; configPath := configPath s |}.

Definition add_log (e : Event) (s : State) : State :=
  {| fs := fs s; log := log s ++ [e]; configManager := configManager s;
     pm := pm s; configPath := configPath s |}.

Definition set_configManager (c : ConfigManager) (s : State) : State :=
  {| fs := fs s; log := log s; configManager := c;
     pm := pm s; configPath := configPath s |}.

Definition set_pm (c : option PMController) (s : State) : State :=
  {| fs := fs s; log := log s; configManager := configManager s;
     pm := c; configPath := configPath s |}.

Definition set_configPath (p : option string) (s : State) : State :=
  {| fs := fs s; log := log s; configManager := configManager s;
     pm := pm s; configPath := p |}.

(** ** The monad of asynchronous methods *)
Definition M (A : Type) : Type := State → Result A * State.

#[global] Instance M_ret : MRet M := λ A a s, (Ok a, s).

#[global] Instance M_bind : MBind M := λ A B f m s,
  match m s with
  | (Ok a, s') => f a s'
  | (Throw e, s') => (Throw e, s')
  end.

Definition throw {A : Type} (e : Error) : M A := λ s, (Throw e, s).
Definition gets {A : Type} (f : State → A) : M A := λ s, (Ok (f s), s).
Definition modify (f : State → State) : M unit := λ s, (Ok tt, f s).

(** What the environment decides: the working directory of the
    process, and the collaborators whose code is out of scope. *)
Record Env : Type := {
  (** [process.cwd()] *)
  cwd : string;
  (** [ConfigManager.serialize]: the configuration document, opaque. *)
  serialize : ConfigManager → string;
  (** The package-manager process behind [PMController.install]: [None]
      on a network or resolution failure, otherwise the manifest and
      the file system with manifest file and lockfile updated. *)
  install_process :
    PMController → list string → option bool → FS → option (PackageConfig * FS);
  (** The on-disk initialization behind [ModuleManager.init]: [None]
      when it fails. *)
  module_process : ModuleManager → FS → option FS
}.

(** ** The [fs-extra] calls the class makes *)
Section FsExtra.
Context (E : Env).

Definition locate (path : string) : list string :=
  Path.segments (cwd E) path.

Definition fs_error {A : Type} (code : Errno) (path : string) : M A :=
  throw (FileSystemError code path).

Definition pathExists (path : string) : M bool := λ s,
  if String.eqb path "" then (Ok false, s)
  else match node_at (fs s) (locate path) with
       | Some _ => (Ok true, s)
       | None => (Ok false, s)
       end.

(** [fs.mkdir] without [recursive]. *)
Definition mkdir (path : string) : M unit := λ s,
  if String.eqb path "" then fs_error ENOENT path s
  else
    let loc := locate path in
    match node_at (fs s) loc with
    | Some _ => fs_error EEXIST path s
    | None =>
        match node_at (fs s) (parent loc) with
        | None => fs_error ENOENT path s
        | Some (File _) => fs_error ENOTDIR path s
        | Some Dir =>
            (Ok tt, add_log (Mkdir path) (set_fs (<[loc:=Dir]> (fs s)) s))
        end
    end.

(** [ensureDir]: creates the directory and every missing ancestor,
    top down; what was created before a failure stays. *)
Fixpoint ensure_go (files : FS) (above : list string) (rest : list string)
    : option Errno * FS :=
  match rest with
  | [] => (None, files)
  | seg :: rest' =>
      let loc := (above ++ [seg])%list in
      match files !! loc with
      | Some (File _) =>
          (Some (match rest' with [] => EEXIST | _ => ENOTDIR end), files)
      | Some Dir => ensure_go files loc rest'
      | None => ensure_go (<[loc:=Dir]> files) loc rest'
      end
  end.

Definition ensureDir (path : string) : M unit := λ s,
  if String.eqb path "" then fs_error ENOENT path s
  else match ensure_go (fs s) [] (locate path) with
       | (Some code, files) => fs_error code path (set_fs files s)
       | (None, files) => (Ok tt, add_log (EnsureDir path) (set_fs files s))
       end.

(** Creating or replacing the file at [path].  A failure is one the
    system call reports before the file is touched; a write cut short
    midway is not modelled. *)
Definition write (path : string) (content : Content) (e : Event) : M unit := λ s,
  if String.eqb path "" then fs_error ENOENT path s
  else
    let loc := locate path in
    match node_at (fs s) loc with
    | Some Dir => fs_error EISDIR path s
    | _ =>
        match node_at (fs s) (parent loc) with
        | None => fs_error ENOENT path s
        | Some (File _) => fs_error ENOTDIR path s
        | Some Dir =>
            (Ok tt, add_log e (set_fs (<[loc:=File content]> (fs s)) s))
        end
    end.

(** [writeJSON(path, doc, { spaces: 4 })]; the indentation only
    shapes the text. *)
Definition writeJSON (path : string) (doc : JSON) : M unit :=
  write path (Json doc) (WriteJSON path doc).

Definition writeFile (path : string) (text : string) : M unit :=
  write path (Text text) (WriteFile path text).

Definition readJSON (path : string) : M JSON := λ s,
  if String.eqb path "" then fs_error ENOENT path s
  else match node_at (fs s) (locate path) with
       | None => fs_error ENOENT path s
       | Some Dir => fs_error EISDIR path s
       | Some (File (Text _)) => throw (SyntaxError path) s
       | Some (File (Json doc)) => (Ok doc, s)
       end.

Definition readdir (path : string) : M (list string) := λ s,
  if String.eqb path "" then fs_error ENOENT path s
  else match node_at (fs s) (locate path) with
       | None => fs_error ENOENT path s
       | Some (File _) => fs_error ENOTDIR path s
       | Some Dir => (Ok (children (fs s) (locate path)), s)
       end.

End FsExtra.

(** ** [PMController], [ConfigManager] and [ModuleManager] *)
Section Collaborators.
Context (E : Env).

(** [createPMController(type, root)] *)
Definition createPMController (type : PMType) (root : string) : PMController :=
  {| pm_type := type; pm_root := root; pm_manifest := None |}.

(** Calling a method of [this.pm] while it is [undefined] throws. *)
Definition this_pm : M PMController := λ s,
  match pm s with
  | Some c => (Ok c, s)
  | None => (Throw TypeError, s)
  end.

Definition manifest_path (c : PMController) : string :=
  Path.join [pm_root c; "package.json"].

Definition manifest_doc (m : PackageConfig) : JSON :=
  JObj (<["name" := JStr (name m)]>
       (<["private" := JBool (private m)]>
       (<["dependencies" := JObj (JStr <$> dependencies m)]>
       (<["devDependencies" := JObj (JStr <$> devDependencies m)]> ∅)))).

(** Modelled from the spec: [PMController.init(name, private)]
    (section 4.1) creates the manifest with the given name and
    privacy and fails with ManifestExistsError when there is one
    already.  The call is synchronous: it works on the state in
    memory. *)
Definition PMController_init (nm : string) (priv : bool) : M unit :=
  c ← this_pm;
  match pm_manifest c with
  | Some _ => throw ManifestExistsError
  | None =>
      modify (set_pm (Some
        {| pm_type := pm_type c; pm_root := pm_root c;
           pm_manifest := Some {| name := nm; private := priv;
                                  dependencies := ∅; devDependencies := ∅ |} |}))
  end.

(** Modelled from the spec: [PMController.save()] (section 4.1)
    persists the manifest held in memory to the manifest file. *)
Definition PMController_save : M unit :=
  c ← this_pm;
  match pm_manifest c with
  | Some m => writeJSON E (manifest_path c) (manifest_doc m)
  | None => mret tt
  end.

(** Modelled from the spec: [PMController.install(names, isDev)]
    (section 4.1) runs the package manager; it fails with
    PackageManagerError, and otherwise the manifest in memory and the
    files on disk are the ones the process leaves. *)
Definition PMController_install (names : list string) (dev : option bool) : M unit :=
  c ← this_pm;
  files ← gets fs;
  match install_process E c names dev files with
  | None => throw PackageManagerError
  | Some (m, files') =>
      modify (λ s, set_pm (Some {| pm_type := pm_type c; pm_root := pm_root c;
                                   pm_manifest := Some m |})
                          (set_fs files' s))
  end.

(** Modelled from the spec: [ConfigManager.init()] resets to the
    empty declared-module set (section 4.2). *)
Definition ConfigManager_init : M unit :=
  modify (set_configManager {| modules := [] |}).

(** Modelled from the spec: [ConfigManager.checkModule(fullName)] is
    the membership test (section 4.2). *)
Definition ConfigManager_checkModule (fullName : string) : M bool :=
  gets (λ s, bool_decide (fullName ∈ modules (configManager s))).

(** Modelled from the spec: [ConfigManager.addModule(fullName)]
    inserts if absent and is a no-op if already present (section
    4.2). *)
Definition addModule_pure (fullName : string) (c : ConfigManager) : ConfigManager :=
  if bool_decide (fullName ∈ modules c) then c
  else {| modules := modules c ++ [fullName] |}.

Definition ConfigManager_addModule (fullName : string) : M unit :=
  modify (λ s, set_configManager (addModule_pure fullName (configManager s)) s).

(** Modelled from the spec: the fully-qualified name of a module is
    its name under the scope of the project (section 3), the scope
    being the one of the path mapping, ["@" ++ name]. *)
Definition fullName (m : ModuleManager) : string :=
  "@" ++ Path.basename (project_root m) ++ "/" ++ module_name m.

(** Modelled from the spec: [ModuleManager.init()] runs the on-disk
    initialization of the module (section 4.3, createModule). *)
Definition ModuleManager_init (m : ModuleManager) : M unit :=
  files ← gets fs;
  match module_process E m files with
  | None => fs_error ENOENT (Path.join [project_root m; "modules"; module_name m])
  | Some files' => modify (set_fs files')
  end.

End Collaborators.

(** ** [ProjectManager] *)
Section ProjectManager.
Context (E : Env).
(** [readonly root], the constructor's argument. *)
Context (root : string).

(** [this.name = basename(this.root)] *)
Definition project_name : string := Path.basename root.

(** [this.externalPath = join(this.root, "external")] *)
Definition externalPath : string := Path.join [root; "external"].

Definition resolve (args : list string) : string := Path.resolve (cwd E) args.

Definition saveConfig : M unit :=
  p ← gets configPath;
  c ← gets configManager;
  match p with
  | Some p => writeFile E p (serialize E c)
  | None => throw TypeError
  end.

Definition setPackageManager (type : PMType) : M unit :=
  modify (set_pm (Some (createPMController type root))).

Definition tsconfigPath : string := resolve [root; "tsconfig.json"].

(** The [baseUrl] of the path-mapping file: the globs of its [paths]
    are taken from this directory under the root. *)
Definition baseUrl : string := "modules".

(** The document [init] writes to [tsconfig.json]. *)
Definition initial_paths : gmap string JSON :=
  <["@" ++ project_name ++ "/*/typings" := JArr [JStr "*/typings"]]>
  (<["@" ++ project_name ++ "/*" := JArr [JStr "*/src"]]> ∅).

Definition initial_tsconfig : JSON :=
  JObj (<["compilerOptions" :=
            JObj (<["target" := JStr "es2019"]>
                 (<["module" := JStr "commonjs"]>
                 (<["moduleResolution" := JStr "node"]>
                 (<["baseUrl" := JStr baseUrl]>
                 (<["strict" := JBool true]>
                 (<["paths" := JObj initial_paths]> ∅))))))]>
       (<["include" := JArr [JStr "replikit.config.ts"; JStr "modules/**/*.ts"]]> ∅)).

Definition init : M unit :=
  ConfigManager_init;;
  exists_ ← pathExists E root;
  (if negb exists_ then ensureDir E root else mret tt);;
  (* Create modules folder *)
  let modulesPath := resolve [root; "modules"] in
  mkdir E modulesPath;;
  (* Create tsconfig *)
  writeJSON E tsconfigPath initial_tsconfig;;
  (* Init package *)
  PMController_init project_name true;;
  PMController_save E;;
  (* Create replikit configuration *)
  modify (set_configPath (Some (resolve [root; "replikit.config.ts"])));;
  saveConfig.

Definition lernaConfigPath : string := resolve [root; "lerna.json"].

(** [{ version: "0.0.0", ...props }] *)
Definition lernaConfig (type : PMType) : JSON :=
  let isYarn := bool_decide (type = Yarn) in
  let props : gmap string JSON :=
    if isYarn then <["useWorkspaces" := JBool true]> (<["npmClient" := JStr "yarn"]> ∅)
    else <["npmClient" := JStr "npm"]> ∅ in
  JObj (props ∪ <["version" := JStr "0.0.0"]> ∅).

Definition addLerna : M unit :=
  PMController_install E ["lerna"] (Some true);;
  c ← this_pm;
  writeJSON E lernaConfigPath (lernaConfig (pm_type c)).

(** The two keys and globs an external repository contributes. *)
Definition external_key (packageJson : JSON) : string :=
  "@" ++ JS.toStringOpt (JS.get "name" packageJson) ++ "/*".

Definition external_typings_key (packageJson : JSON) : string :=
  "@" ++ JS.toStringOpt (JS.get "name" packageJson) ++ "/*/typings".

Definition external_glob (path : string) : string :=
  "../external/" ++ path ++ "/modules/*/src".

Definition external_typings_glob (path : string) : string :=
  "../external/" ++ path ++ "/modules/*/typings".

(** [{ ...paths, [k1]: [g1], [k2]: [g2] }] *)
Definition merged_paths (packageJson : JSON) (path : string)
    (paths : option JSON) : gmap string JSON :=
  <[external_typings_key packageJson := JArr [JStr (external_typings_glob path)]]>
  (<[external_key packageJson := JArr [JStr (external_glob path)]]>
  (JS.spread paths)).

(** The statement [tsconfig.compilerOptions.paths = { ... }] on the
    parsed documents, in strict mode: reading a property of [null] or
    [undefined] throws, and so does creating one on a primitive; a
    property set on an array is not part of its JSON text. *)
Definition assign_paths (packageJson : JSON) (path : string) (tsconfig : JSON)
    : Result JSON :=
  match tsconfig with
  | JNull => Throw TypeError
  | _ =>
      match JS.get "compilerOptions" tsconfig with
      | None | Some JNull => Throw TypeError
      | Some compilerOptions =>
          match packageJson with
          | JNull => Throw TypeError
          | _ =>
              let paths := merged_paths packageJson path
                             (JS.get "paths" compilerOptions) in
              match compilerOptions, tsconfig with
              | JObj options, JObj top =>
                  Ok (JObj (<["compilerOptions" :=
                               JObj (<["paths" := JObj paths]> options)]> top))
              | JArr _, _ => Ok tsconfig
              | _, _ => Throw TypeError
              end
          end
      end
  end.

Definition lift {A : Type} (r : Result A) : M A := λ s, (r, s).

Definition addExternalRepo (path : string) : M unit :=
  let packageJsonPath := Path.join [externalPath; path; "package.json"] in
  packageJson ← readJSON E packageJsonPath;
  tsconfig ← readJSON E tsconfigPath;
  tsconfig' ← lift (assign_paths packageJson path tsconfig);
  writeJSON E tsconfigPath tsconfig'.

(** [moduleNames.map(x => `@${packageJson.name}/${x}`)]: the name is
    read once per element, so a [null] manifest only throws when
    there is an element. *)
Definition scoped_names (packageJson : JSON) (moduleNames : list string)
    : Result (list string) :=
  match moduleNames, packageJson with
  | [], _ => Ok []
  | _, JNull => Throw TypeError
  | _, _ =>
      Ok (map (λ x, "@" ++ JS.toStringOpt (JS.get "name" packageJson) ++ "/" ++ x)
              moduleNames)
  end.

Definition getExternalModuleNames (path : string) : M (list string) :=
  let repoPath := Path.join [externalPath; path] in
  let packageJsonPath := Path.join [repoPath; "package.json"] in
  packageJson ← readJSON E packageJsonPath;
  let modulesPath := Path.join [repoPath; "modules"] in
  moduleNames ← readdir E modulesPath;
  lift (scoped_names packageJson moduleNames).

Definition getModule (nm : string) : M ModuleManager :=
  c ← this_pm;
  mret {| project_root := root; module_name := nm; module_pm := pm_type c |}.

Definition createModule (nm : string) : M ModuleManager :=
  module ← getModule nm;
  ModuleManager_init E module;;
  declared ← ConfigManager_checkModule (fullName module);
  (if negb declared then
     ConfigManager_addModule (fullName module);;
     saveConfig
   else mret tt);;
  mret module.

Definition install (mods : list string) (dev : option bool) : M unit :=
  PMController_install E mods dev.

(** [for (const module of modules) this.configManager.addModule(module)] *)
Fixpoint declare_all (mods : list string) : M unit :=
  match mods with
  | [] => mret tt
  | module :: rest => ConfigManager_addModule module;; declare_all rest
  end.

Definition addLocalModules (mods : list string) : M unit :=
  declare_all mods;;
  saveConfig.

Definition addModules (mods : list string) (dev : option bool) : M unit :=
  install mods dev;;
  addLocalModules mods.

End ProjectManager.

(** ** Reading the persisted representations back *)
Section Observations.
Context (E : Env).

(** The document [readJSON] finds at [path], if any. *)
Definition file_doc (s : State) (path : string) : option JSON :=
  match readJSON E path s with
  | (Ok doc, _) => Some doc
  | (Throw _, _) => None
  end.

(** The [compilerOptions.paths] map of a path-mapping document. *)
Definition paths_of (doc : JSON) : option (gmap string JSON) :=
  match JS.get "compilerOptions" doc with
  | Some options =>
      match JS.get "paths" options with
      | Some (JObj paths) => Some paths
      | _ => None
      end
  | None => None
  end.

(** The [paths] map of the project's path-mapping file. *)
Definition mapping_paths (root : string) (s : State) : option (gmap string JSON) :=
  file_doc s (tsconfigPath E root) ≫= paths_of.

Definition is_dir (s : State) (path : string) : bool :=
  match node_at (fs s) (locate E path) with
  | Some Dir => negb (String.eqb path "")
  | _ => false
  end.

End Observations.

(** A concrete environment and project, used to run the model. *)
Definition demoEnv : Env :=
  {| cwd := "/home/user";
     serialize := λ c, Path.join_with "," (modules c);
     install_process := λ c names dev files,
       match pm_manifest c with
       | Some m =>
           let added : gmap string string :=
             list_to_map ((λ n, (n, "latest")) <$> names) in
           Some (match dev with
                 | Some true =>
                     {| name := name m; private := private m;
                        dependencies := dependencies m;
                        devDependencies := added ∪ devDependencies m |}
                 | _ =>
                     {| name := name m; private := private m;
                        dependencies := added ∪ dependencies m;
                        devDependencies := devDependencies m |}
                 end, files)
       | None => None
       end;
     module_process := λ m files, Some files |}.

(** The state of [new ProjectManager(root)] on a given disk. *)
Definition new_project (files : FS) : State :=
  {| fs := files; log := []; configManager := {| modules := [] |};
     pm := None; configPath := None |}.

Definition demo_configured : State :=
  set_pm (Some (createPMController Yarn "/tmp/proj")) (new_project ∅).

Definition demo_initialized : State :=
  snd ((setPackageManager "/tmp/proj" Yarn;; init demoEnv "/tmp/proj") (new_project ∅)).

(** The same project once a repository declaring the package name
    "ext" has been linked under [external/repo]; its [modules]
    directory holds the module [core] and a plain file. *)
Definition demo_linked : State :=
  let repo := ["tmp"; "proj"; "external"; "repo"] in
  set_fs
    (<[(repo ++ ["modules"; "README.md"])%list := File (Text "docs")]>
    (<[(repo ++ ["modules"; "core"])%list := Dir]>
    (<[(repo ++ ["modules"])%list := Dir]>
    (<[(repo ++ ["package.json"])%list :=
         File (Json (JObj (<["name" := JStr "ext"]> ∅)))]>
    (<[repo := Dir]>
    (<[["tmp"; "proj"; "external"] := Dir]> (fs demo_initialized)))))))
    demo_initialized.

Definition demo_paths : gmap string JSON :=
  <["@proj/*/typings" := JArr [JStr "*/typings"]]>
  (<["@proj/*" := JArr [JStr "*/src"]]> ∅).

Definition demo_relinked : State :=
  snd (addExternalRepo demoEnv "/tmp/proj" "repo" demo_linked).

(** Further states of the same project: initialized from a relative
    root; configured with a stale declaration; linked, with the
    path-mapping file removed, emptied, or given an array for
    [compilerOptions]; linked to a repository whose manifest has no
    name. *)
Definition demo_relative : State :=
  snd ((setPackageManager "work/app" Npm;; init demoEnv "work/app") (new_project ∅)).

Definition demo_stale : State :=
  set_configManager {| modules := ["@proj/old"] |} demo_configured.

Definition demo_tsconfig_loc : list string := ["tmp"; "proj"; "tsconfig.json"].

Definition demo_unmapped : State :=
  set_fs (delete demo_tsconfig_loc (fs demo_linked)) demo_linked.

Definition demo_bare : State :=
  set_fs (<[demo_tsconfig_loc := File (Json (JObj ∅))]> (fs demo_linked)) demo_linked.

Definition demo_array_doc : JSON := JObj (<["compilerOptions" := JArr []]> ∅).

Definition demo_array : State :=
  set_fs (<[demo_tsconfig_loc := File (Json demo_array_doc)]> (fs demo_linked))
         demo_linked.

Definition demo_nameless : State :=
  set_fs (<[["tmp"; "proj"; "external"; "repo"; "package.json"] := File (Json (JObj ∅))]>
            (fs demo_linked))
         demo_linked.

Definition demo_options : gmap string JSON :=
  match JS.get "compilerOptions" (initial_tsconfig "/tmp/proj") with
  | Some (JObj options) => options
  | _ => ∅
  end.

(** The initialized project with one module declared. *)
Definition demo_declared : State :=
  set_configManager {| modules := ["@proj/core"] |} demo_initialized.

(** The reading of the specification for an [init] that finds
    [modules] in place: it throws a file-system error and the state it
    leaves is the one it found, but for the creation of the root
    directory. *)
Definition init_only_creates_root (E : Env) (root : string) (s : State) : Prop :=
  ∃ code path s',
    init E root s = (Throw (FileSystemError code path), s') ∧
    (s' = s ∨ ∃ files, s' = add_log (EnsureDir root) (set_fs files s)).

(** ** Sequences of [addExternalRepo] calls *)
Section Sequences.
Context (E : Env) (root : string).

Definition external_manifest (path : string) : string :=
  Path.join [externalPath root; path; "package.json"].

(** The call [addExternalRepo(path)] made in state [s] specifies the
    key [k] itself. *)
Definition respecifies (path : string) (s : State) (k : string) : bool :=
  match file_doc E s (external_manifest path) with
  | Some packageJson =>
      bool_decide (k = external_key packageJson)
      || bool_decide (k = external_typings_key packageJson)
  | None => false
  end.

(** The state after a sequence of calls, each one awaited whatever
    its outcome. *)
Fixpoint addExternalRepos (calls : list string) (s : State) : State :=
  match calls with
  | [] => s
  | path :: rest => addExternalRepos rest (snd (addExternalRepo E root path s))
  end.

Fixpoint respecified (k : string) (calls : list string) (s : State) : bool :=
  match calls with
  | [] => false
  | path :: rest =>
      respecifies path s k
      || respecified k rest (snd (addExternalRepo E root path s))
  end.

End Sequences.

(** ** The modules of a linked repository *)
Section ExternalModules.
Context (E : Env) (root : string).

(** The paths [getExternalModuleNames(path)] reads. *)
Definition repo_manifest (path : string) : string :=
  Path.join [Path.join [externalPath root; path]; "package.json"].

Definition repo_modules (path : string) : string :=
  Path.join [Path.join [externalPath root; path]; "modules"].

(** The entries of a directory that are directories themselves. *)
Definition directory_at (files : FS) (loc : list string) : bool :=
  match files !! loc with
  | Some Dir => true
  | _ => false
  end.

Definition subdirectories (s : State) (path : string) : list string :=
  filter (λ x, directory_at (fs s) (locate E path ++ [x])%list = true)
         (children (fs s) (locate E path)).

(** The reading of the specification: the names returned are, up to
    their order, one [{packageName}/{dirName}] per module directory
    of the linked repository. *)
Definition one_name_per_module_directory (path : string) (s : State) : Prop :=
  ∀ names s' packageJson nm,
    getExternalModuleNames E root path s = (Ok names, s') →
    file_doc E s (repo_manifest path) = Some packageJson →
    JS.get "name" packageJson = Some (JStr nm) →
    names ≡ₚ (λ x, nm ++ "/" ++ x) <$> subdirectories s (repo_modules path).

End ExternalModules.

(** ** Order of the mutations in the log *)

Definition writes_json (path : string) (e : Event) : bool :=
  match e with
  | WriteJSON p _ => String.eqb p path
  | _ => false
  end.

Definition writes_file (path : string) (e : Event) : bool :=
  match e with
  | WriteFile p _ => String.eqb p path
  | _ => false
  end.

(** The writes of the configuration document among the events of
    [l]; [saveConfig] is the only caller of [writeFile]. *)
Definition is_config_write (e : Event) : bool :=
  match e with
  | WriteFile _ _ => true
  | _ => false
  end.

Definition config_writes (l : list Event) : nat :=
  length (filter (λ e, is_config_write e = true) l).

(** How many times a name is declared. *)
Definition declared_times (fullName : string) (s : State) : nat :=
  count_occ string_dec (modules (configManager s)) fullName.

(** The mutations of one [init] call, in order: possibly the creation
    of the root, then as many of the four steps as succeeded. *)
Definition init_steps E (root : string) (c : PMController) (text : string)
    : list Event :=
  [ Mkdir (resolve E [root; "modules"]);
    WriteJSON (tsconfigPath E root) (initial_tsconfig root);
    WriteJSON (manifest_path c)
      (manifest_doc {| name := project_name root; private := true;
                       dependencies := ∅; devDependencies := ∅ |});
    WriteFile (resolve E [root; "replikit.config.ts"]) text ].

(** Every event of [l] satisfying [after] comes later in [l] than
    some event satisfying [before]. *)
Definition precedes (before after : Event → bool) (l : list Event) : Prop :=
  ∀ i e, l !! i = Some e → after e = true →
    ∃ j e', j < i ∧ l !! j = Some e' ∧ before e' = true.

(** The declared set once a batch of names has gone through
    [addModule], one after the other. *)
Definition declared_after (mods : list string) (c : ConfigManager) : ConfigManager :=
  foldl (λ c m, addModule_pure m c) c mods.

(** ** Plain path segments

    A plain segment is a file or directory name: not empty, not ["."]
    or [".."], and without a separator. *)
Fixpoint no_slash (s : string) : bool :=
  match s with
  | EmptyString => true
  | String c s' => negb (Ascii.eqb c Path.slash) && no_slash s'
  end.

Definition plain (seg : string) : bool :=
  no_slash seg && negb (String.eqb seg "") && negb (String.eqb seg ".")
  && negb (String.eqb seg "..").

(** The last segment of the path [s] is [seg]. *)
Definition ends_with (seg s : string) : Prop :=
  ∃ l, Path.split s = (l ++ [seg])%list.

(** ** The path functions on the paths of the scenario *)

Example basename_tmp_proj : Path.basename "/tmp/proj" = "proj".
Proof. reflexivity. Qed.

Example resolve_modules cwd :
  Path.resolve cwd ["/tmp/proj"; "modules"] = "/tmp/proj/modules".
Proof. reflexivity. Qed.

Example join_external :
  Path.join [Path.join ["/tmp/proj"; "external"]; "repo"; "package.json"]
  = "/tmp/proj/external/repo/package.json".
Proof. reflexivity. Qed.

(** A string is spread by UTF-16 code unit. *)
Example chars_ascii : JS.chars "ab" = ["a"; "b"].
Proof. reflexivity. Qed.

Example chars_two_bytes : JS.chars "é" = ["é"].
Proof. reflexivity. Qed.

Example chars_three_bytes : JS.chars "a€" = ["a"; "€"].
Proof. reflexivity. Qed.

Example chars_surrogate_pair :
  JS.chars "😀" = [JS.unit_string 55357; JS.unit_string 56832].
Proof. reflexivity. Qed.

(** ** Stepping through a method *)

Lemma bind_inv {A B : Type} (m : M A) (f : A → M B) s r s' :
  (m ≫= f) s = (r, s') →
  (∃ a s1, m s = (Ok a, s1) ∧ f a s1 = (r, s')) ∨
  (∃ e, m s = (Throw e, s') ∧ r = Throw e).
Proof.
  unfold mbind, M_bind. destruct (m s) as [[a|e] s1]; intros H.
  - left. eauto.
  - right. inversion H; subst. eauto.
Qed.

Lemma bind_ok {A B : Type} (m : M A) (f : A → M B) s b s' :
  (m ≫= f) s = (Ok b, s') →
  ∃ a s1, m s = (Ok a, s1) ∧ f a s1 = (Ok b, s').
Proof.
  intros H. apply bind_inv in H as [H|(e & _ & H)]; [done|discriminate].
Qed.

Lemma bind_throw {A B : Type} (m : M A) (f : A → M B) s e s' :
  m s = (Throw e, s') → (m ≫= f) s = (Throw e, s').
Proof. intros H. unfold mbind, M_bind. by rewrite H. Qed.

Lemma bind_step {A B : Type} (m : M A) (f : A → M B) s a s1 :
  m s = (Ok a, s1) → (m ≫= f) s = f a s1.
Proof. intros H. unfold mbind, M_bind. by rewrite H. Qed.

Section FsLemmas.
Context (E : Env).

Lemma write_inv path content e s r s' :
  write E path content e s = (r, s') →
  (r = Ok tt ∧ path ≠ "" ∧ locate E path ≠ [] ∧
   s' = add_log e (set_fs (<[locate E path := File content]> (fs s)) s)) ∨
  (∃ code, r = Throw (FileSystemError code path) ∧ s' = s).
Proof.
  unfold write, fs_error, throw.
  destruct (String.eqb_spec path "") as [->|Hne].
  { intros [= <- <-]. right. eauto. }
  destruct (locate E path) as [|seg loc] eqn:Hloc.
  { simpl. intros [= <- <-]. right. eauto. }
  rewrite <- Hloc.
  assert (locate E path ≠ []) by (rewrite Hloc; done).
  repeat case_match; intros [= <- <-]; eauto 10.
Qed.

Lemma mkdir_inv path s r s' :
  mkdir E path s = (r, s') →
  (r = Ok tt ∧ s' = add_log (Mkdir path) (set_fs (<[locate E path := Dir]> (fs s)) s)) ∨
  (∃ code, r = Throw (FileSystemError code path) ∧ s' = s).
Proof.
  unfold mkdir, fs_error, throw.
  repeat case_match; intros [= <- <-]; eauto 10.
Qed.

Lemma readJSON_inv path s r s' :
  readJSON E path s = (r, s') →
  s' = s ∧
  match r with
  | Ok doc => file_doc E s path = Some doc
  | Throw _ => file_doc E s path = None
  end.
Proof.
  intros H. unfold file_doc. rewrite H. split; [|by destruct r].
  revert H. unfold readJSON, fs_error, throw.
  repeat case_match; by intros [= <- <-].
Qed.

Lemma file_doc_written path doc e s :
  path ≠ "" → locate E path ≠ [] →
  file_doc E (add_log e (set_fs (<[locate E path := File (Json doc)]> (fs s)) s)) path
  = Some doc.
Proof.
  intros Hne Hloc. unfold file_doc, readJSON.
  destruct (String.eqb_spec path ""); [done|]. simpl.
  destruct (locate E path) eqn:Hl; [done|].
  unfold node_at. by rewrite lookup_insert_eq.
Qed.

Lemma pathExists_inv path s r s' :
  pathExists E path s = (r, s') → s' = s ∧ ∃ b, r = Ok b.
Proof.
  unfold pathExists. repeat case_match; intros [= <- <-]; eauto.
Qed.

(** [ensureDir] only ever adds directories. *)
Lemma ensure_go_grows files above rest code files' loc :
  ensure_go files above rest = (code, files') →
  files' !! loc = files !! loc ∨ (files !! loc = None ∧ files' !! loc = Some Dir).
Proof.
  revert files above. induction rest as [|seg rest IH]; intros files above; simpl.
  { intros [= <- <-]. by left. }
  destruct (files !! (above ++ [seg])%list) as [[|c]|] eqn:Hl.
  - apply IH.
  - intros [= <- <-]. by left.
  - intros H. apply IH in H.
    destruct (decide ((above ++ [seg])%list = loc)) as [<-|Hne].
    + rewrite lookup_insert_eq in H. right. split; [done|]. by destruct H as [H|[H _]].
    + by rewrite lookup_insert_ne in H.
Qed.

Lemma ensureDir_inv path s r s' :
  ensureDir E path s = (r, s') →
  ∃ code files,
    ensure_go (fs s) [] (locate E path) = (code, files) ∧
    ((r = Ok tt ∧ s' = add_log (EnsureDir path) (set_fs files s)) ∨
     (∃ c, r = Throw (FileSystemError c path) ∧ s' = set_fs files s) ∨
     (∃ c, r = Throw (FileSystemError c path) ∧ s' = s)).
Proof.
  unfold ensureDir, fs_error, throw.
  destruct (ensure_go (fs s) [] (locate E path)) as [code files] eqn:Hgo.
  exists code, files. split; [done|].
  repeat case_match; simplify_eq; eauto 10.
Qed.

Lemma file_doc_lookup s path :
  path ≠ "" → locate E path ≠ [] →
  file_doc E s path =
    match fs s !! locate E path with
    | Some (File (Json doc)) => Some doc
    | _ => None
    end.
Proof.
  intros Hne Hloc. unfold file_doc, readJSON, fs_error, throw.
  destruct (String.eqb_spec path ""); [done|].
  destruct (locate E path) eqn:Hl; [done|]. simpl.
  repeat case_match; simplify_eq; done.
Qed.

End FsLemmas.

Section CollaboratorLemmas.
Context (E : Env).

Lemma PMController_init_inv nm priv s r s' :
  PMController_init nm priv s = (r, s') →
  (∃ c, pm s = Some c ∧ r = Ok tt ∧
        s' = set_pm (Some {| pm_type := pm_type c; pm_root := pm_root c;
                             pm_manifest := Some {| name := nm; private := priv;
                                                    dependencies := ∅;
                                                    devDependencies := ∅ |} |}) s) ∨
  (∃ e, r = Throw e ∧ s' = s).
Proof.
  unfold PMController_init, this_pm, mbind, M_bind, modify, throw.
  repeat case_match; simplify_eq; intros [= <- <-]; eauto 10.
Qed.

Lemma PMController_save_some c m s :
  pm s = Some c → pm_manifest c = Some m →
  PMController_save E s = writeJSON E (manifest_path c) (manifest_doc m) s.
Proof.
  intros Hc Hm. unfold PMController_save, this_pm, mbind, M_bind.
  by rewrite Hc, Hm.
Qed.

Lemma saveConfig_some p s :
  configPath s = Some p →
  saveConfig E s = writeFile E p (serialize E (configManager s)) s.
Proof.
  intros Hp. unfold saveConfig, gets, mbind, M_bind. by rewrite Hp.
Qed.

Lemma saveConfig_none s :
  configPath s = None → saveConfig E s = (Throw TypeError, s).
Proof.
  intros Hp. unfold saveConfig, gets, mbind, M_bind. by rewrite Hp.
Qed.

End CollaboratorLemmas.


(** ** Project initialization *)

(** C1: for a project rooted at /tmp/proj, once [init] has completed
    the package manifest declares the name "proj" and is private, the
    [modules] directory exists, and the [paths] map of the path-mapping
    file consists of exactly the two entries "@proj/*" -> ["*/src"] and
    "@proj/*/typings" -> ["*/typings"]. *)
Theorem init_tmp_proj E (type : PMType) (s s' : State) :
  (setPackageManager "/tmp/proj" type;; init E "/tmp/proj") s = (Ok tt, s') →
  (∃ doc, file_doc E s' "/tmp/proj/package.json" = Some doc ∧
          JS.get "name" doc = Some (JStr "proj") ∧
          JS.get "private" doc = Some (JBool true)) ∧
  is_dir E s' "/tmp/proj/modules" = true ∧
  mapping_paths E "/tmp/proj" s' =
    Some (<["@proj/*/typings" := JArr [JStr "*/typings"]]>
         (<["@proj/*" := JArr [JStr "*/src"]]> ∅)).
Proof.
  intros H.
  apply bind_ok in H as (? & s0 & [= <- <-] & H).
  unfold init in H.
  apply bind_ok in H as (? & s1 & [= <- <-] & H).
  apply bind_ok in H as (ex & s2 & Hex & H).
  apply bind_ok in H as ([] & s3 & Hens & H).
  apply bind_ok in H as ([] & s4 & Hmk & H).
  apply bind_ok in H as ([] & s5 & Hts & H).
  apply bind_ok in H as ([] & s6 & Hpi & H).
  apply bind_ok in H as ([] & s7 & Hsave & H).
  apply bind_ok in H as ([] & s8 & [= <-] & H).
  apply pathExists_inv in Hex as [-> _].
  assert (pm s3 = Some (createPMController type "/tmp/proj")) as Hpm3.
  { destruct (negb ex); [|by inversion Hens].
    apply ensureDir_inv in Hens as (code & files & _ & [[_ ->]|[(? & ? & _)|(? & ? & _)]]);
      done. }
  apply mkdir_inv in Hmk as [[_ ->]|(? & ? & _)]; [|done].
  apply write_inv in Hts as [(_ & _ & _ & ->)|(? & ? & _)]; [|done].
  apply PMController_init_inv in Hpi as [(c & Hc & _ & ->)|(? & ? & _)]; [|done].
  simpl in Hc. rewrite Hpm3 in Hc. injection Hc as <-.
  erewrite PMController_save_some in Hsave; [|reflexivity..].
  apply write_inv in Hsave as [(_ & _ & _ & ->)|(? & ? & _)]; [|done].
  erewrite saveConfig_some in H; [|done..].
  apply write_inv in H as [(_ & _ & _ & ->)|(? & ? & _)]; [|done].
  clear Hens Hpm3.
  unfold mapping_paths, is_dir.
  rewrite !file_doc_lookup by done.
  cbn [fs add_log set_fs set_pm set_configPath set_configManager].
  change (locate E (resolve E ["/tmp/proj"; "replikit.config.ts"]))
    with ["tmp"; "proj"; "replikit.config.ts"].
  change (locate E (manifest_path _)) with ["tmp"; "proj"; "package.json"].
  change (locate E (tsconfigPath E "/tmp/proj")) with ["tmp"; "proj"; "tsconfig.json"].
  change (locate E (resolve E ["/tmp/proj"; "modules"])) with ["tmp"; "proj"; "modules"].
  change (locate E "/tmp/proj/package.json") with ["tmp"; "proj"; "package.json"].
  change (locate E "/tmp/proj/modules") with ["tmp"; "proj"; "modules"].
  cbn [node_at]. generalize (fs s3). intros files.
  split; [|split]; repeat (rewrite lookup_insert_ne by done);
    rewrite lookup_insert_eq.
  - eexists. split; [reflexivity|]. split; reflexivity.
  - reflexivity.
  - reflexivity.
Qed.

(** The witness of C1: a run on an empty disk. *)
Lemma init_tmp_proj_witness :
  (setPackageManager "/tmp/proj" Yarn;; init demoEnv "/tmp/proj") (new_project ∅)
    = (Ok tt, demo_initialized) ∧
  ((∃ doc, file_doc demoEnv demo_initialized "/tmp/proj/package.json" = Some doc ∧
           JS.get "name" doc = Some (JStr "proj") ∧
           JS.get "private" doc = Some (JBool true)) ∧
   is_dir demoEnv demo_initialized "/tmp/proj/modules" = true ∧
   mapping_paths demoEnv "/tmp/proj" demo_initialized =
     Some (<["@proj/*/typings" := JArr [JStr "*/typings"]]>
          (<["@proj/*" := JArr [JStr "*/src"]]> ∅))).
Proof.
  assert ((setPackageManager "/tmp/proj" Yarn;; init demoEnv "/tmp/proj") (new_project ∅)
          = (Ok tt, demo_initialized)) as Hrun by (vm_compute; reflexivity).
  split; [exact Hrun|].
  exact (init_tmp_proj demoEnv Yarn (new_project ∅) demo_initialized Hrun).
Defined.

(** C9, as the code has it: when something already exists at
    [modules] under the root, [init] raises a file-system error and no
    file has been written: the log gains no write (at most the
    creation of the root directory), every file on disk afterwards was
    there before with the same content, and nothing was removed.  In
    memory the call is not without effect: [configManager.init()] has
    run first, so the declared-module set is empty afterwards; the
    package manager and the configuration path are as before. *)
Theorem init_modules_exists E root (s : State) :
  pathExists E (resolve E [root; "modules"]) s = (Ok true, s) →
  ∃ code path s',
    init E root s = (Throw (FileSystemError code path), s') ∧
    (log s' = log s ∨ log s' = (log s ++ [EnsureDir root])%list) ∧
    (∀ loc c, fs s' !! loc = Some (File c) → fs s !! loc = Some (File c)) ∧
    (∀ loc n, fs s !! loc = Some n → fs s' !! loc = Some n) ∧
    configManager s' = {| modules := [] |} ∧
    pm s' = pm s ∧
    configPath s' = configPath s.
Proof.
  intros Hex. unfold init.
  set (s1 := set_configManager {| modules := [] |} s).
  rewrite (bind_step _ _ s tt s1) by reflexivity.
  assert (∀ s2 : State,
            (∀ loc n, fs s !! loc = Some n → fs s2 !! loc = Some n) →
            ∃ code, mkdir E (resolve E [root; "modules"]) s2
                    = (Throw (FileSystemError code (resolve E [root; "modules"])), s2))
    as Hmk.
  { intros s2 Hgrow. revert Hex. unfold pathExists, mkdir, fs_error, throw.
    destruct (String.eqb _ ""); [done|].
    destruct (locate E (resolve E [root; "modules"])) as [|seg loc] eqn:Hloc; simpl.
    { eauto. }
    destruct (fs s !! (seg :: loc)) as [n|] eqn:Hn; [|done].
    rewrite (Hgrow _ _ Hn). eauto. }
  destruct (pathExists E root s1) as [rex s1'] eqn:Hroot.
  apply pathExists_inv in Hroot as Hroot'. destruct Hroot' as [-> [ex ->]].
  rewrite (bind_step _ _ s1 ex s1) by done.
  destruct ex; simpl negb; cbv iota.
  - rewrite (bind_step _ _ s1 tt s1) by reflexivity.
    destruct (Hmk s1) as [code Hcode]; [done|].
    exists code, (resolve E [root; "modules"]), s1.
    split; [by apply bind_throw|]. repeat split; auto.
  - destruct (ensureDir E root s1) as [r2 s2] eqn:Hens.
    apply ensureDir_inv in Hens as Hens'.
    destruct Hens' as (c & files & Hgo & Hcases).
    pose proof (λ loc, ensure_go_grows _ _ _ _ _ loc Hgo) as Hgrow.
    assert (∀ loc n, fs s !! loc = Some n → files !! loc = Some n) as Hkeep.
    { intros loc n Hn. destruct (Hgrow loc) as [Heq|[Hnone _]].
      - by rewrite Heq.
      - simpl in Hnone. congruence. }
    assert (∀ loc c, files !! loc = Some (File c) → fs s !! loc = Some (File c)) as Hsame.
    { intros loc c0 Hc0. destruct (Hgrow loc) as [Heq|[_ Hdir]].
      - by rewrite <- Hc0, Heq.
      - congruence. }
    destruct Hcases as [[-> ->]|[(c0 & -> & ->)|(c0 & -> & ->)]].
    + rewrite (bind_step _ _ s1 tt _ Hens).
      destruct (Hmk (add_log (EnsureDir root) (set_fs files s1))) as [code Hcode]; [done|].
      exists code, (resolve E [root; "modules"]), (add_log (EnsureDir root) (set_fs files s1)).
      split; [by apply bind_throw|]. repeat split; auto.
    + exists c0, root, (set_fs files s1).
      split; [by apply bind_throw|]. repeat split; auto.
    + exists c0, root, s1.
      split; [by apply bind_throw|]. repeat split; auto.
Qed.

(** The witness of C9: [init] on the initialized project, with a
    module declared since. *)
Lemma init_modules_exists_witness :
  pathExists demoEnv (resolve demoEnv ["/tmp/proj"; "modules"]) demo_declared
    = (Ok true, demo_declared) ∧
  ∃ code path s',
    init demoEnv "/tmp/proj" demo_declared
      = (Throw (FileSystemError code path), s') ∧
    (log s' = log demo_declared ∨
     log s' = (log demo_declared ++ [EnsureDir "/tmp/proj"])%list) ∧
    (∀ loc c, fs s' !! loc = Some (File c) → fs demo_declared !! loc = Some (File c)) ∧
    (∀ loc n, fs demo_declared !! loc = Some n → fs s' !! loc = Some n) ∧
    configManager s' = {| modules := [] |} ∧
    pm s' = pm demo_declared ∧
    configPath s' = configPath demo_declared.
Proof.
  assert (pathExists demoEnv (resolve demoEnv ["/tmp/proj"; "modules"]) demo_declared
          = (Ok true, demo_declared)) as Hex by (vm_compute; reflexivity).
  split; [exact Hex|].
  exact (init_modules_exists demoEnv "/tmp/proj" demo_declared Hex).
Defined.

(** C9, as the specification words it, fails on the initialized
    project once a module is declared: [modules] exists, [init] throws
    EEXIST, and yet the state it leaves is neither the one it found
    nor that one with the root created, because the declared module
    is gone. *)
Lemma init_modules_exists_forgets_declared :
  pathExists demoEnv (resolve demoEnv ["/tmp/proj"; "modules"]) demo_declared
    = (Ok true, demo_declared) ∧
  modules (configManager demo_declared) = ["@proj/core"] ∧
  modules (configManager (snd (init demoEnv "/tmp/proj" demo_declared))) = [] ∧
  ¬ init_only_creates_root demoEnv "/tmp/proj" demo_declared.
Proof.
  assert (init demoEnv "/tmp/proj" demo_declared
          = (Throw (FileSystemError EEXIST "/tmp/proj/modules"),
             set_configManager {| modules := [] |} demo_declared)) as Hrun
    by (vm_compute; reflexivity).
  split; [vm_compute; reflexivity|]. split; [reflexivity|].
  split; [by rewrite Hrun|].
  intros (code & path & s' & Hs' & Hsame). rewrite Hrun in Hs'.
  injection Hs' as _ _ <-.
  destruct Hsame as [Hsame|[files Hsame]];
    apply (f_equal (λ st, modules (configManager st))) in Hsame; discriminate.
Qed.

Lemma init_log E root s r s' :
  init E root s = (r, s') →
  ∃ pre (n : nat) c text,
    (pre = [] ∨ pre = [EnsureDir root]) ∧
    ((n ≤ 2)%nat ∨ pm s = Some c) ∧
    log s' = (log s ++ pre ++ take n (init_steps E root c text))%list ∧
    (r = Ok tt → n = 4).
Proof.
  intros H. unfold init in H.
  set (dummy := createPMController Npm "").
  apply bind_inv in H as [(? & s1 & [= <- <-] & H)|(? & [=] & _)].
  apply bind_inv in H as [(ex & s2 & Hex & H)|(? & Hex & _)].
  2:{ by apply pathExists_inv in Hex as [_ [? [=]]]. }
  apply pathExists_inv in Hex as [-> _].
  assert (∃ pre, (pre = [] ∨ pre = [EnsureDir root]) ∧
            ∀ r3 s3, (if negb ex then ensureDir E root else mret ())
                       (set_configManager {| modules := [] |} s) = (r3, s3) →
                     log s3 = (log s ++ pre)%list ∧ pm s3 = pm s ∧
                     (∀ e, r3 = Throw e → pre = [])) as (pre & Hpre & Hens).
  { destruct ex; simpl.
    - exists []. split; [by left|]. intros r3 s3 [= <- <-]. simpl.
      by rewrite app_nil_r.
    - destruct (ensureDir E root _) as [r3 s3] eqn:Hens.
      apply ensureDir_inv in Hens as (? & files & _ & [[-> ->]|[(? & -> & ->)|(? & -> & ->)]]).
      + exists [EnsureDir root]. split; [by right|]. intros ? ? [= <- <-]. done.
      + exists []. split; [by left|]. intros ? ? [= <- <-]. simpl. by rewrite app_nil_r.
      + exists []. split; [by left|]. intros ? ? [= <- <-]. simpl. by rewrite app_nil_r. }
  apply bind_inv in H as [([] & s3 & Hm & H)|(e & Hm & ->)]; apply Hens in Hm as (Hlog & Hpm & Hthrow).
  2:{ exists [], 0, dummy, "". rewrite (Hthrow e eq_refl) in Hlog. rewrite Hlog.
      split; [by left|]. split; [left; lia|]. split; [|done]. simpl. by rewrite ?app_nil_r. }
  exists pre.
  apply bind_inv in H as [([] & s4 & Hm & H)|(e & Hm & ->)];
    apply mkdir_inv in Hm as [[[=] ->]|(? & [=] & ->)]; subst.
  2:{ exists 0, dummy, "". rewrite Hlog. split; [done|]. split; [left; lia|]. split; [|done].
      simpl. by rewrite ?app_nil_r. }
  apply bind_inv in H as [([] & s5 & Hm & H)|(e & Hm & ->)];
    apply write_inv in Hm as [([=] & _ & _ & ->)|(? & [=] & ->)]; subst.
  2:{ exists 1, dummy, "". simpl. rewrite Hlog, <- !app_assoc.
      split; [done|]. split; [left; lia|]. split; [|done]. simpl. by rewrite ?app_nil_r. }
  apply bind_inv in H as [([] & s6 & Hm & H)|(e & Hm & ->)];
    apply PMController_init_inv in Hm as [(c & Hc & [=] & ->)|(? & [=] & ->)]; subst.
  2:{ exists 2, dummy, "". simpl. rewrite Hlog, <- !app_assoc.
      split; [done|]. split; [left; lia|]. split; [|done]. simpl. by rewrite ?app_nil_r. }
  simpl in Hc. rewrite Hpm in Hc.
  apply bind_inv in H as [([] & s7 & Hm & H)|(e & Hm & ->)];
    (erewrite PMController_save_some in Hm; [|reflexivity..]);
    apply write_inv in Hm as [([=] & _ & _ & ->)|(? & [=] & ->)]; subst.
  2:{ exists 2, dummy, "". simpl. rewrite Hlog, <- !app_assoc.
      split; [done|]. split; [left; lia|]. split; [|done]. simpl. by rewrite ?app_nil_r. }
  apply bind_inv in H as [([] & s8 & [= <-] & H)|(e & [=] & _)].
  erewrite saveConfig_some in H; [|reflexivity].
  apply write_inv in H as [(-> & _ & _ & ->)|(? & -> & ->)].
  - eexists 4, c, _. simpl. rewrite Hlog, <- !app_assoc.
    split; [done|]. split; [by right|]. split; [|done]. simpl. reflexivity.
  - exists 3, c, "". simpl. rewrite Hlog, <- !app_assoc.
    split; [done|]. split; [by right|]. split; [|done]. done.
Qed.

(** C8: within one [init] call the path-mapping file and the package
    manifest are written before the configuration file: whatever the
    outcome, a write of [replikit.config.ts] in the log of the call
    comes after a write of [tsconfig.json] and after a write of the
    manifest; and a completed call does write the configuration. *)
Theorem init_config_written_last E root (s : State) r s' :
  init E root s = (r, s') →
  let config := resolve E [root; "replikit.config.ts"] in
  ∃ δ, log s' = (log s ++ δ)%list ∧
       precedes (writes_json (tsconfigPath E root)) (writes_file config) δ ∧
       match pm s with
       | Some c => precedes (writes_json (manifest_path c)) (writes_file config) δ
       | None => ∀ e, e ∈ δ → writes_file config e = false
       end ∧
       (r = Ok tt → ∃ e, e ∈ δ ∧ writes_file config e = true).
Proof.
  intros H config.
  apply init_log in H as (pre & n & c & text & Hpre & Hpm & Hlog & Hn).
  exists (pre ++ take n (init_steps E root c text))%list.
  split; [done|].
  assert (∀ i e, (pre ++ take n (init_steps E root c text))%list !! i = Some e →
                 writes_file config e = true →
                 pm s = Some c ∧
                 (pre ++ take n (init_steps E root c text))%list !! (length pre + 3)%nat
                   = Some e ∧ i = (length pre + 3)%nat ∧
                 (pre ++ take n (init_steps E root c text))%list !! (length pre + 1)%nat
                   = Some (WriteJSON (tsconfigPath E root) (initial_tsconfig root)) ∧
                 ∃ doc, (pre ++ take n (init_steps E root c text))%list
                          !! (length pre + 2)%nat
                        = Some (WriteJSON (manifest_path c) doc)) as Hpos.
  { intros i e Hi He.
    destruct Hpre as [-> | ->];
      destruct n as [|[|[|[|n]]]]; simpl in Hi |- *;
      destruct i as [|[|[|[|[|i]]]]]; simpl in Hi; rewrite ?take_nil in Hi;
      simpl in Hi; simplify_eq; try discriminate;
      (destruct Hpm as [?|Hpm]; [lia|]); eauto 10. }
  split; [|split].
  - intros i e Hi He. destruct (Hpos i e Hi He) as (_ & _ & -> & Hts & _).
    eexists _, _. split; [|split; [exact Hts|]]; [lia|]. simpl. apply String.eqb_refl.
  - destruct (pm s) as [c0|] eqn:Hc0.
    + intros i e Hi He. destruct (Hpos i e Hi He) as (Hc & _ & -> & _ & doc & Hm).
      injection Hc as ->.
      eexists _, _. split; [|split; [exact Hm|]]; [lia|]. simpl. apply String.eqb_refl.
    + intros e [i Hi]%list_elem_of_lookup.
      destruct (writes_file config e) eqn:He; [|done].
      by destruct (Hpos i e Hi He) as (? & _).
  - intros Hr. rewrite (Hn Hr). exists (WriteFile config text). split.
    + apply elem_of_app. right. simpl. rewrite !elem_of_cons. auto 10.
    + simpl. apply String.eqb_refl.
Qed.

(** The witness of C8: the first [init] of a project on an empty disk. *)
Lemma init_config_written_last_witness :
  init demoEnv "/tmp/proj" demo_configured = (Ok tt, demo_initialized) ∧
  let config := resolve demoEnv ["/tmp/proj"; "replikit.config.ts"] in
  ∃ δ, log demo_initialized = (log demo_configured ++ δ)%list ∧
       precedes (writes_json (tsconfigPath demoEnv "/tmp/proj")) (writes_file config) δ ∧
       match pm demo_configured with
       | Some c => precedes (writes_json (manifest_path c)) (writes_file config) δ
       | None => ∀ e, e ∈ δ → writes_file config e = false
       end ∧
       (Ok tt = Ok tt → ∃ e, e ∈ δ ∧ writes_file config e = true).
Proof.
  assert (init demoEnv "/tmp/proj" demo_configured = (Ok tt, demo_initialized))
    as Hrun by (vm_compute; reflexivity).
  split; [exact Hrun|].
  exact (init_config_written_last demoEnv "/tmp/proj" demo_configured _ _ Hrun).
Defined.

(** ** Linking external repositories *)
Section ExternalRepo.
Context (E : Env) (root : string).

Lemma assign_paths_object packageJson path tsconfig paths :
  paths_of tsconfig = Some paths →
  packageJson ≠ JNull →
  ∃ tsconfig',
    assign_paths packageJson path tsconfig = Ok tsconfig' ∧
    paths_of tsconfig' = Some (merged_paths packageJson path (Some (JObj paths))).
Proof.
  unfold paths_of, assign_paths. intros Hp Hnull.
  destruct tsconfig as [| | | | |top]; try done. simpl in *.
  destruct (top !! "compilerOptions") as [[| | | | |options]|]; try done.
  simpl in *. destruct (options !! "paths") as [[| | | | |paths0]|] eqn:Hpaths; try done.
  injection Hp as ->.
  destruct packageJson; try done; eexists; (split; [reflexivity|]);
    simpl; rewrite lookup_insert_eq; simpl; by rewrite lookup_insert_eq.
Qed.

Lemma assign_paths_null path tsconfig :
  ∃ e, assign_paths JNull path tsconfig = Throw e.
Proof.
  unfold assign_paths. repeat case_match; eauto.
Qed.

(** What one call does: it either throws and leaves everything as it
    was, or it has read both documents and replaced the mapping
    file. *)
Lemma addExternalRepo_run path s r s' :
  addExternalRepo E root path s = (r, s') →
  (∃ e, r = Throw e ∧ s' = s) ∨
  (∃ packageJson tsconfig tsconfig',
     r = Ok tt ∧
     file_doc E s (external_manifest root path) = Some packageJson ∧
     file_doc E s (tsconfigPath E root) = Some tsconfig ∧
     assign_paths packageJson path tsconfig = Ok tsconfig' ∧
     file_doc E s' (tsconfigPath E root) = Some tsconfig' ∧
     log s' = (log s ++ [WriteJSON (tsconfigPath E root) tsconfig'])%list).
Proof.
  unfold addExternalRepo. intros H.
  apply bind_inv in H as [(pj & s1 & Hm & H)|(e & Hm & ->)];
    apply readJSON_inv in Hm as [-> Hpj]; [|by eauto].
  apply bind_inv in H as [(ts & s1 & Hm & H)|(e & Hm & ->)];
    apply readJSON_inv in Hm as [-> Hts]; [|by eauto].
  apply bind_inv in H as [(ts' & s1 & Hm & H)|(e & Hm & ->)];
    unfold lift in Hm; injection Hm as Hassign <-; [|by eauto].
  apply write_inv in H as [(-> & Hne & Hloc & ->)|(? & -> & ->)]; [|by eauto].
  right. exists pj, ts, ts'. repeat split; try done.
  by apply file_doc_written.
Qed.

(** C10: the linked repository's manifest is read first, so when it
    is absent or unreadable the call raises an error and nothing has
    changed, the path-mapping file included. *)
Theorem addExternalRepo_manifest_unreadable path (s : State) :
  file_doc E s (external_manifest root path) = None →
  ∃ e, addExternalRepo E root path s = (Throw e, s).
Proof.
  intros Hnone.
  destruct (addExternalRepo E root path s) as [r s'] eqn:H.
  apply addExternalRepo_run in H as [(e & -> & ->)|(? & ? & ? & _ & Hsome & _)].
  - eauto.
  - congruence.
Qed.

Lemma endsWithSlash_app a b :
  b ≠ "" → Path.endsWithSlash (a ++ b) = Path.endsWithSlash b.
Proof.
  intros Hb. induction a as [|c a IH]; [done|].
  simpl. destruct (a ++ b) eqn:Hab; [|done].
  destruct a; simpl in Hab; [done|discriminate].
Qed.

(** Taken from [baseUrl], a glob of an external repository denotes a
    location under [external/{path}/modules]. *)
Lemma external_glob_target path tail :
  Path.endsWithSlash tail = false → tail ≠ "" →
  Path.join [baseUrl; "../external/" ++ path ++ tail]
  = Path.normalize ("external/" ++ path ++ tail).
Proof.
  intros Htail Hne. unfold Path.join, baseUrl.
  rewrite filter_cons_True by done. rewrite filter_cons_True by done.
  rewrite filter_nil.
  change (Path.join_with "/" ["modules"; "../external/" ++ path ++ tail])
    with ("modules/../external/" ++ (path ++ tail)).
  change ("external/" ++ path ++ tail) with ("external/" ++ (path ++ tail)).
  assert (path ++ tail ≠ "") as Hne'.
  { destruct path; [done|discriminate]. }
  unfold Path.normalize.
  rewrite !endsWithSlash_app by done.
  reflexivity.
Qed.

(** C3: a completed [addExternalRepo(path)] adds exactly two entries
    to the [paths] map, whatever it held before: the scope of the
    package name the linked repository declares and its typings
    scope, each mapped to one glob; taken from [baseUrl] the globs
    point at external/{path}/modules/*/src and
    external/{path}/modules/*/typings. *)
Theorem addExternalRepo_two_entries path (s s' : State) packageJson nm paths :
  file_doc E s (external_manifest root path) = Some packageJson →
  JS.get "name" packageJson = Some (JStr nm) →
  mapping_paths E root s = Some paths →
  addExternalRepo E root path s = (Ok tt, s') →
  let src := "../external/" ++ path ++ "/modules/*/src" in
  let typings := "../external/" ++ path ++ "/modules/*/typings" in
  mapping_paths E root s' =
    Some (<["@" ++ nm ++ "/*/typings" := JArr [JStr typings]]>
         (<["@" ++ nm ++ "/*" := JArr [JStr src]]> paths)) ∧
  "@" ++ nm ++ "/*" ≠ "@" ++ nm ++ "/*/typings" ∧
  Path.join [baseUrl; src] = Path.normalize ("external/" ++ path ++ "/modules/*/src") ∧
  Path.join [baseUrl; typings]
    = Path.normalize ("external/" ++ path ++ "/modules/*/typings").
Proof.
  intros Hpj Hname Hpaths Hrun src typings.
  split; [|split; [|split]].
  - apply addExternalRepo_run in Hrun
      as [(e & [=] & _)|(pj & ts & ts' & _ & Hpj' & Hts & Hassign & Hts' & _)].
    rewrite Hpj in Hpj'. injection Hpj' as <-.
    unfold mapping_paths in *. rewrite Hts in Hpaths. rewrite Hts'. simpl in *.
    destruct (assign_paths_object packageJson path ts paths Hpaths)
      as (ts2 & Hassign2 & Hpaths2).
    { by destruct packageJson. }
    rewrite Hassign in Hassign2. injection Hassign2 as <-.
    rewrite Hpaths2. unfold merged_paths, external_key, external_typings_key.
    rewrite Hname. reflexivity.
  - intros Heq. apply (inj (String.app "@")), (inj (String.app nm)) in Heq.
    discriminate.
  - by apply external_glob_target.
  - by apply external_glob_target.
Qed.

Lemma addExternalRepo_keeps path (s : State) paths k v :
  mapping_paths E root s = Some paths →
  paths !! k = Some v →
  respecifies E root path s k = false →
  ∃ paths', mapping_paths E root (snd (addExternalRepo E root path s)) = Some paths' ∧
            paths' !! k = Some v.
Proof.
  intros Hpaths Hk Hfresh.
  destruct (addExternalRepo E root path s) as [r s'] eqn:Hrun. simpl.
  apply addExternalRepo_run in Hrun
    as [(e & _ & ->)|(pj & ts & ts' & _ & Hpj & Hts & Hassign & Hts' & _)].
  { eauto. }
  unfold respecifies in Hfresh. rewrite Hpj in Hfresh.
  apply orb_false_elim in Hfresh as [Hk1%bool_decide_eq_false Hk2%bool_decide_eq_false].
  unfold mapping_paths in *. rewrite Hts in Hpaths. rewrite Hts'. simpl in *.
  assert (pj ≠ JNull) as Hnull.
  { intros ->. destruct (assign_paths_null path ts) as [e He]. congruence. }
  destruct (assign_paths_object pj path ts paths Hpaths Hnull) as (ts2 & Hassign2 & Hpaths2).
  rewrite Hassign in Hassign2. injection Hassign2 as <-.
  rewrite Hpaths2. eexists. split; [done|].
  unfold merged_paths. by rewrite !lookup_insert_ne.
Qed.

(** C2: over any sequence of [addExternalRepo] calls, a key of the
    [paths] map that no call of the sequence specifies itself is
    still there, with the same value, after the sequence: merging
    never drops or alters the other entries. *)
Theorem addExternalRepos_keep calls (s : State) paths k v :
  mapping_paths E root s = Some paths →
  paths !! k = Some v →
  respecified E root k calls s = false →
  ∃ paths', mapping_paths E root (addExternalRepos E root calls s) = Some paths' ∧
            paths' !! k = Some v.
Proof.
  revert s paths. induction calls as [|path calls IH]; intros s paths Hpaths Hk Hfresh.
  { simpl. eauto. }
  simpl in *. apply orb_false_elim in Hfresh as [Hhere Hlater].
  destruct (addExternalRepo_keeps path s paths k v Hpaths Hk Hhere) as (paths1 & H1 & Hk1).
  by apply (IH _ paths1).
Qed.

End ExternalRepo.

(** The witness of C10: no repository is linked under [external/repo]. *)
Lemma addExternalRepo_manifest_unreadable_witness :
  file_doc demoEnv demo_initialized (external_manifest "/tmp/proj" "repo") = None ∧
  ∃ e, addExternalRepo demoEnv "/tmp/proj" "repo" demo_initialized
       = (Throw e, demo_initialized).
Proof.
  assert (file_doc demoEnv demo_initialized (external_manifest "/tmp/proj" "repo") = None)
    as Habsent by (vm_compute; reflexivity).
  split; [exact Habsent|].
  exact (addExternalRepo_manifest_unreadable demoEnv "/tmp/proj" "repo"
           demo_initialized Habsent).
Defined.

(** The witness of C3: linking [external/repo], which declares "ext". *)
Lemma addExternalRepo_two_entries_witness :
  file_doc demoEnv demo_linked (external_manifest "/tmp/proj" "repo")
    = Some (JObj (<["name" := JStr "ext"]> ∅)) ∧
  JS.get "name" (JObj (<["name" := JStr "ext"]> ∅)) = Some (JStr "ext") ∧
  mapping_paths demoEnv "/tmp/proj" demo_linked = Some demo_paths ∧
  addExternalRepo demoEnv "/tmp/proj" "repo" demo_linked = (Ok tt, demo_relinked) ∧
  mapping_paths demoEnv "/tmp/proj" demo_relinked =
    Some (<["@ext/*/typings" := JArr [JStr "../external/repo/modules/*/typings"]]>
         (<["@ext/*" := JArr [JStr "../external/repo/modules/*/src"]]> demo_paths)).
Proof.
  assert (file_doc demoEnv demo_linked (external_manifest "/tmp/proj" "repo")
          = Some (JObj (<["name" := JStr "ext"]> ∅))) as H1 by (vm_compute; reflexivity).
  assert (JS.get "name" (JObj (<["name" := JStr "ext"]> ∅)) = Some (JStr "ext"))
    as H2 by (vm_compute; reflexivity).
  assert (mapping_paths demoEnv "/tmp/proj" demo_linked = Some demo_paths)
    as H3 by (vm_compute; reflexivity).
  assert (addExternalRepo demoEnv "/tmp/proj" "repo" demo_linked = (Ok tt, demo_relinked))
    as H4 by (vm_compute; reflexivity).
  repeat (split; [assumption|]).
  exact (proj1 (addExternalRepo_two_entries demoEnv "/tmp/proj" "repo" demo_linked
                  demo_relinked _ "ext" demo_paths H1 H2 H3 H4)).
Defined.

(** The witness of C2: the project's own scope survives two links. *)
Lemma addExternalRepos_keep_witness :
  mapping_paths demoEnv "/tmp/proj" demo_linked = Some demo_paths ∧
  demo_paths !! "@proj/*" = Some (JArr [JStr "*/src"]) ∧
  respecified demoEnv "/tmp/proj" "@proj/*" ["repo"; "repo"] demo_linked = false ∧
  ∃ paths',
    mapping_paths demoEnv "/tmp/proj"
      (addExternalRepos demoEnv "/tmp/proj" ["repo"; "repo"] demo_linked) = Some paths' ∧
    paths' !! "@proj/*" = Some (JArr [JStr "*/src"]).
Proof.
  assert (mapping_paths demoEnv "/tmp/proj" demo_linked = Some demo_paths)
    as H1 by (vm_compute; reflexivity).
  assert (demo_paths !! "@proj/*" = Some (JArr [JStr "*/src"]))
    as H2 by (vm_compute; reflexivity).
  assert (respecified demoEnv "/tmp/proj" "@proj/*" ["repo"; "repo"] demo_linked = false)
    as H3 by (vm_compute; reflexivity).
  repeat (split; [assumption|]).
  exact (addExternalRepos_keep demoEnv "/tmp/proj" ["repo"; "repo"] demo_linked
           demo_paths "@proj/*" _ H1 H2 H3).
Defined.

(** ** Modules and dependencies *)
Section Modules.
Context (E : Env) (root : string).

Lemma install_throws mods dev (s : State) e s1 :
  install E mods dev s = (Throw e, s1) → s1 = s.
Proof.
  unfold install, PMController_install, this_pm, gets, modify, throw, mbind, M_bind.
  repeat case_match; simplify_eq; by intros [= <-].
Qed.

(** C5: when the install step of [addModules] fails, [addModules]
    fails with the same error before declaring anything: the
    declared-module set, the disk (so the persisted configuration
    file) and the log are what they were before the call. *)
Theorem addModules_install_fails mods dev (s : State) e s1 :
  install E mods dev s = (Throw e, s1) →
  addModules E mods dev s = (Throw e, s1) ∧
  modules (configManager s1) = modules (configManager s) ∧
  fs s1 = fs s ∧
  log s1 = log s.
Proof.
  intros H. split.
  - unfold addModules. by apply bind_throw.
  - by apply install_throws in H as ->.
Qed.

Lemma addModule_pure_NoDup fullName c :
  NoDup (modules c) → NoDup (modules (addModule_pure fullName c)).
Proof.
  intros Hc. unfold addModule_pure. case_bool_decide as Hin; [done|]. simpl.
  apply NoDup_app. split; [done|]. split.
  - intros x Hx [->|[]%elem_of_nil]%elem_of_cons. done.
  - apply NoDup_singleton.
Qed.

Lemma declared_once fullName (s : State) :
  NoDup (modules (configManager s)) →
  fullName ∈ modules (configManager s) →
  declared_times fullName s = 1.
Proof.
  intros Hnd Hin. unfold declared_times.
  apply NoDup_ListNoDup in Hnd.
  apply (proj1 (NoDup_count_occ' string_dec _) Hnd). by apply list_elem_of_In.
Qed.

(** What a completed [createModule] has done. *)
Lemma createModule_run nm (s : State) m s1 :
  createModule E root nm s = (Ok m, s1) →
  ∃ c files,
    pm s = Some c ∧
    m = {| project_root := root; module_name := nm; module_pm := pm_type c |} ∧
    module_process E m (fs s) = Some files ∧
    pm s1 = pm s ∧ configPath s1 = configPath s ∧
    ((fullName m ∈ modules (configManager s) ∧ s1 = set_fs files s) ∨
     ((fullName m ∉ modules (configManager s)) ∧
      configManager s1 = addModule_pure (fullName m) (configManager s) ∧
      ∃ e, is_config_write e = true ∧ log s1 = (log s ++ [e])%list)).
Proof.
  unfold createModule, getModule. intros H.
  apply bind_ok in H as (m0 & s0 & Hm & H).
  apply bind_ok in Hm as (c & ? & Hc & [= <- <-]).
  unfold this_pm in Hc. destruct (pm s) as [c0|] eqn:Hpm; [|done].
  injection Hc as <- <-.
  apply bind_ok in H as ([] & s2 & Hinit & H).
  unfold ModuleManager_init in Hinit.
  apply bind_ok in Hinit as (files0 & ? & [= <- <-] & Hinit).
  destruct (module_process E _ (fs s)) as [files|] eqn:Hproc; [|done].
  injection Hinit as <-.
  apply bind_ok in H as (declared & ? & [= <- <-] & H).
  apply bind_ok in H as ([] & s3 & Hsave & [= <- <-]).
  exists c0, files. split; [done|]. split; [done|]. split; [done|].
  cbn [configManager set_fs] in Hsave.
  case_bool_decide as Hin; simpl in Hsave.
  - injection Hsave as <-. split; [done|]. split; [done|]. by left.
  - apply bind_ok in Hsave as ([] & ? & [= <-] & Hsave).
    destruct (configPath s) as [p|] eqn:Hp.
    2:{ rewrite saveConfig_none in Hsave by done. discriminate. }
    erewrite saveConfig_some in Hsave by done.
    apply write_inv in Hsave as [(_ & _ & _ & ->)|(? & [=] & _)].
    split; [done|]. split; [done|]. right. split; [done|]. split; [done|].
    eexists. split; [|reflexivity]. done.
Qed.

Lemma addModule_pure_elem fullName c :
  fullName ∈ modules (addModule_pure fullName c).
Proof.
  unfold addModule_pure. case_bool_decide; [done|]. simpl.
  apply elem_of_app. right. apply elem_of_cons. by left.
Qed.

(** C4: when [createModule(name)] has returned a module and the
    module's on-disk initialization succeeds again, a second
    [createModule(name)] returns the same module, the fully-qualified
    name is declared exactly once, the second call leaves the
    declared set and the log as they were (it writes no
    configuration), and the two calls together wrote the
    configuration at most once. *)
Theorem createModule_twice nm (s : State) m s1 :
  NoDup (modules (configManager s)) →
  createModule E root nm s = (Ok m, s1) →
  is_Some (module_process E m (fs s1)) →
  ∃ s2 δ,
    createModule E root nm s1 = (Ok m, s2) ∧
    module_name m = nm ∧
    declared_times (fullName m) s2 = 1 ∧
    configManager s2 = configManager s1 ∧
    log s2 = log s1 ∧
    log s2 = (log s ++ δ)%list ∧ (config_writes δ ≤ 1)%nat.
Proof.
  intros Hnd Hfirst [files' Hagain].
  apply createModule_run in Hfirst
    as (c & files & Hpm & Hm & Hproc & Hpm1 & Hcp1 & Hcases).
  assert (fullName m ∈ modules (configManager s1) ∧
          NoDup (modules (configManager s1)) ∧
          ∃ δ, log s1 = (log s ++ δ)%list ∧ (config_writes δ ≤ 1)%nat)
    as (Hin & Hnd1 & δ & Hlog & Hcount).
  { destruct Hcases as [[Hin ->]|(Hnotin & Hcm & e & He & Hlog)].
    - split; [done|]. split; [done|]. exists []. simpl.
      rewrite app_nil_r. split; [done|]. unfold config_writes. simpl. lia.
    - rewrite Hcm. split; [apply addModule_pure_elem|].
      split; [by apply addModule_pure_NoDup|].
      exists [e]. split; [done|]. unfold config_writes.
      rewrite filter_cons_True by done. simpl. lia. }
  exists (set_fs files' s1), δ.
  split.
  - unfold createModule, getModule, this_pm, ModuleManager_init,
      ConfigManager_checkModule, gets, modify, mbind, M_bind, mret, M_ret.
    rewrite Hpm1, Hpm. rewrite <- Hm. rewrite Hagain.
    cbn [configManager set_fs]. by rewrite bool_decide_eq_true_2.
  - split; [by rewrite Hm|]. split; [by apply declared_once|]. done.
Qed.

End Modules.

(** ** Enumerating the modules of a linked repository *)
Section ExternalModuleNames.
Context (E : Env) (root : string).

Lemma child_split (k : list string) :
  k ≠ [] → k = (parent k ++ [List.last k ""])%list.
Proof. intros Hk. by apply app_removelast_last. Qed.

Lemma children_spec (files : FS) loc x :
  x ∈ children files loc ↔ is_Some (files !! (loc ++ [x])%list).
Proof.
  unfold children. rewrite list_elem_of_fmap. split.
  - intros (k & -> & Hk). apply list_elem_of_filter in Hk as [[Hne <-] Hk].
    rewrite <- child_split by done.
    apply list_elem_of_fmap in Hk as ([k' n] & -> & Hkn).
    apply elem_of_map_to_list in Hkn. eauto.
  - intros [n Hn]. exists (loc ++ [x])%list. split.
    + by rewrite last_last.
    + apply list_elem_of_filter. split.
      * split; [by destruct loc|]. unfold parent. by rewrite removelast_last.
      * apply list_elem_of_fmap. exists (loc ++ [x], n)%list.
        split; [done|]. by apply elem_of_map_to_list.
Qed.

Lemma children_NoDup (files : FS) loc : NoDup (children files loc).
Proof.
  unfold children. apply NoDup_fmap_2_strong.
  - intros k1 k2 [[Hne1 Hp1] _]%list_elem_of_filter [[Hne2 Hp2] _]%list_elem_of_filter Hl.
    rewrite (child_split k1), (child_split k2) by done. congruence.
  - apply NoDup_filter, NoDup_fst_map_to_list.
Qed.

(** C6, as the code has it: when the linked repository's manifest
    declares the package name [nm] and its [modules] directory can
    be listed, [getExternalModuleNames(path)] returns, in listing
    order, one scoped name ["@" ++ nm ++ "/" ++ x] for every entry
    [x] of that directory, whether a directory or a file; each entry
    is listed once. *)
Theorem getExternalModuleNames_entries path (s : State) packageJson nm entries :
  file_doc E s (repo_manifest root path) = Some packageJson →
  JS.get "name" packageJson = Some (JStr nm) →
  readdir E (repo_modules root path) s = (Ok entries, s) →
  getExternalModuleNames E root path s
    = (Ok ((λ x, "@" ++ nm ++ "/" ++ x) <$> entries), s) ∧
  NoDup entries ∧
  ∀ x, x ∈ entries ↔ is_Some (fs s !! (locate E (repo_modules root path) ++ [x])%list).
Proof.
  intros Hpj Hname Hdir.
  assert (entries = children (fs s) (locate E (repo_modules root path))) as Hentries.
  { revert Hdir. unfold readdir, fs_error, throw. repeat case_match; congruence. }
  split; [|split].
  - unfold getExternalModuleNames.
    assert (readJSON E (repo_manifest root path) s = (Ok packageJson, s)) as Hread.
    { destruct (readJSON E (repo_manifest root path) s) as [r s1] eqn:Hr.
      apply readJSON_inv in Hr as [-> Hr]. destruct r; congruence. }
    rewrite (bind_step _ _ _ _ _ Hread).
    fold (repo_modules root path). rewrite (bind_step _ _ _ _ _ Hdir).
    unfold lift, scoped_names. rewrite Hname.
    destruct entries; [done|]. by destruct packageJson.
  - rewrite Hentries. apply children_NoDup.
  - intros x. rewrite Hentries. apply children_spec.
Qed.

End ExternalModuleNames.

(** C6, as the specification words it, fails on a repository whose
    [modules] directory holds the module [core] and a plain file: the
    file is named as well, and every name carries the "@" of the
    scope. *)
Lemma getExternalModuleNames_not_directories :
  getExternalModuleNames demoEnv "/tmp/proj" "repo" demo_linked
    = (Ok ["@ext/core"; "@ext/README.md"], demo_linked) ∧
  subdirectories demoEnv demo_linked (repo_modules "/tmp/proj" "repo") = ["core"] ∧
  ¬ one_name_per_module_directory demoEnv "/tmp/proj" "repo" demo_linked.
Proof.
  assert (getExternalModuleNames demoEnv "/tmp/proj" "repo" demo_linked
          = (Ok ["@ext/core"; "@ext/README.md"], demo_linked)) as Hrun
    by (vm_compute; reflexivity).
  assert (subdirectories demoEnv demo_linked (repo_modules "/tmp/proj" "repo") = ["core"])
    as Hdirs by (vm_compute; reflexivity).
  split; [exact Hrun|]. split; [exact Hdirs|].
  intros Hclaim.
  specialize (Hclaim _ _ (JObj (<["name" := JStr "ext"]> ∅)) "ext" Hrun).
  rewrite Hdirs in Hclaim.
  apply Permutation_length in Hclaim; [discriminate| |]; vm_compute; reflexivity.
Qed.

(** The witness of C6 as amended, on the same repository. *)
Lemma getExternalModuleNames_entries_witness :
  file_doc demoEnv demo_linked (repo_manifest "/tmp/proj" "repo")
    = Some (JObj (<["name" := JStr "ext"]> ∅)) ∧
  JS.get "name" (JObj (<["name" := JStr "ext"]> ∅)) = Some (JStr "ext") ∧
  readdir demoEnv (repo_modules "/tmp/proj" "repo") demo_linked
    = (Ok ["core"; "README.md"], demo_linked) ∧
  getExternalModuleNames demoEnv "/tmp/proj" "repo" demo_linked
    = (Ok ((λ x, "@" ++ "ext" ++ "/" ++ x) <$> ["core"; "README.md"]), demo_linked).
Proof.
  assert (file_doc demoEnv demo_linked (repo_manifest "/tmp/proj" "repo")
          = Some (JObj (<["name" := JStr "ext"]> ∅))) as H1 by (vm_compute; reflexivity).
  assert (JS.get "name" (JObj (<["name" := JStr "ext"]> ∅)) = Some (JStr "ext"))
    as H2 by (vm_compute; reflexivity).
  assert (readdir demoEnv (repo_modules "/tmp/proj" "repo") demo_linked
          = (Ok ["core"; "README.md"], demo_linked)) as H3 by (vm_compute; reflexivity).
  repeat (split; [assumption|]).
  exact (proj1 (getExternalModuleNames_entries demoEnv "/tmp/proj" "repo" demo_linked
                  _ "ext" _ H1 H2 H3)).
Defined.

(** ** Workspace tooling *)
Section Lerna.
Context (E : Env) (root : string).

Lemma install_run mods dev (s : State) r s1 :
  install E mods dev s = (r, s1) →
  (∃ c m files, r = Ok tt ∧ pm s = Some c ∧
     install_process E c mods dev (fs s) = Some (m, files) ∧
     s1 = set_pm (Some {| pm_type := pm_type c; pm_root := pm_root c;
                          pm_manifest := Some m |}) (set_fs files s)) ∨
  (∃ e, r = Throw e ∧ s1 = s).
Proof.
  unfold install, PMController_install, this_pm, gets, modify, throw, mbind, M_bind.
  destruct (pm s) as [c|] eqn:Hc; [|intros [= <- <-]; eauto].
  destruct (install_process E c mods dev (fs s)) as [[m files]|] eqn:Hp;
    intros [= <- <-]; [left|right]; eauto 10.
Qed.

(** C7: [addLerna] writes [lerna.json] only once the install of the
    workspace dependency has succeeded, and what it writes depends on
    the variant: with Yarn the document has [useWorkspaces: true],
    with npm it has no [useWorkspaces] field.  When anything fails
    the log gains no write. *)
Theorem addLerna_metadata (s : State) r s' :
  addLerna E root s = (r, s') →
  (∃ c s1 doc,
     r = Ok tt ∧
     pm s = Some c ∧
     install E ["lerna"] (Some true) s = (Ok tt, s1) ∧
     log s' = (log s ++ [WriteJSON (lernaConfigPath E root) doc])%list ∧
     file_doc E s' (lernaConfigPath E root) = Some doc ∧
     JS.get "version" doc = Some (JStr "0.0.0") ∧
     match pm_type c with
     | Yarn => JS.get "npmClient" doc = Some (JStr "yarn") ∧
               JS.get "useWorkspaces" doc = Some (JBool true)
     | Npm => JS.get "npmClient" doc = Some (JStr "npm") ∧
              JS.get "useWorkspaces" doc = None
     end) ∨
  (∃ e, r = Throw e ∧ log s' = log s).
Proof.
  unfold addLerna. intros H.
  apply bind_inv in H as [([] & s1 & Hinstall & H)|(e & Hinstall & ->)].
  2:{ right. exists e. split; [done|].
      by apply install_run in Hinstall as [(? & ? & ? & [=] & _)|(? & _ & ->)]. }
  fold (install E ["lerna"] (Some true)) in Hinstall.
  apply install_run in Hinstall as Hrun.
  destruct Hrun as [(c & m & files & _ & Hc & Hproc & Hs1)|(? & [=] & _)].
  apply bind_inv in H as [(c1 & s2 & Hthis & H)|(e & Hthis & ->)];
    unfold this_pm in Hthis; rewrite Hs1 in Hthis; simpl in Hthis;
    [injection Hthis as <- <-|discriminate].
  apply write_inv in H as [(-> & Hne & Hloc & ->)|(code & -> & ->)].
  - left. eexists c, _, (lernaConfig (pm_type c)).
    split; [done|]. split; [done|]. split; [exact Hinstall|].
    split; [done|]. split; [by apply file_doc_written|].
    by destruct (pm_type c).
  - right. eexists. split; [done|]. done.
Qed.

End Lerna.

(** The witness of C7: a Yarn project, freshly initialized. *)
Lemma addLerna_metadata_witness :
  ∃ s',
    addLerna demoEnv "/tmp/proj" demo_initialized = (Ok tt, s') ∧
    ∃ doc, file_doc demoEnv s' (lernaConfigPath demoEnv "/tmp/proj") = Some doc ∧
           JS.get "useWorkspaces" doc = Some (JBool true).
Proof.
  exists (snd (addLerna demoEnv "/tmp/proj" demo_initialized)).
  assert (addLerna demoEnv "/tmp/proj" demo_initialized
          = (Ok tt, snd (addLerna demoEnv "/tmp/proj" demo_initialized))) as Hrun
    by (vm_compute; reflexivity).
  split; [exact Hrun|].
  destruct (addLerna_metadata demoEnv "/tmp/proj" demo_initialized _ _ Hrun)
    as [(c & s1 & doc & _ & Hc & _ & _ & Hdoc & _ & Hshape)|(e & He & _)].
  - exists doc. split; [exact Hdoc|].
    vm_compute in Hc. injection Hc as <-. exact (proj2 Hshape).
  - discriminate.
Defined.

(** The witness of C5: installing before any manifest exists. *)
Lemma addModules_install_fails_witness :
  install demoEnv ["left-pad"] None demo_configured
    = (Throw PackageManagerError, demo_configured) ∧
  addModules demoEnv ["left-pad"] None demo_configured
    = (Throw PackageManagerError, demo_configured).
Proof.
  assert (install demoEnv ["left-pad"] None demo_configured
          = (Throw PackageManagerError, demo_configured)) as Hfail
    by (vm_compute; reflexivity).
  split; [exact Hfail|].
  exact (proj1 (addModules_install_fails demoEnv ["left-pad"] None demo_configured
                  _ _ Hfail)).
Defined.

(** The witness of C4: the module [core], created twice. *)
Lemma createModule_twice_witness :
  let m := {| project_root := "/tmp/proj"; module_name := "core"; module_pm := Yarn |} in
  let s1 := snd (createModule demoEnv "/tmp/proj" "core" demo_initialized) in
  NoDup (modules (configManager demo_initialized)) ∧
  createModule demoEnv "/tmp/proj" "core" demo_initialized = (Ok m, s1) ∧
  is_Some (module_process demoEnv m (fs s1)) ∧
  ∃ s2 δ,
    createModule demoEnv "/tmp/proj" "core" s1 = (Ok m, s2) ∧
    module_name m = "core" ∧
    declared_times (fullName m) s2 = 1 ∧
    configManager s2 = configManager s1 ∧
    log s2 = log s1 ∧
    log s2 = (log demo_initialized ++ δ)%list ∧ (config_writes δ ≤ 1)%nat.
Proof.
  intros m s1.
  assert (NoDup (modules (configManager demo_initialized))) as H1
    by (vm_compute; constructor).
  assert (createModule demoEnv "/tmp/proj" "core" demo_initialized = (Ok m, s1)) as H2
    by (vm_compute; reflexivity).
  assert (is_Some (module_process demoEnv m (fs s1))) as H3 by (simpl; eauto).
  repeat (split; [assumption|]).
  exact (createModule_twice demoEnv "/tmp/proj" "core" demo_initialized m s1 H1 H2 H3).
Defined.

(** ** Paths that end in a plain segment *)
Section PathLemmas.

Lemma string_app_assoc (a b c : string) : (a ++ b) ++ c = a ++ b ++ c.
Proof.
  induction a as [|x a IH]; [done|].
  change (String x ((a ++ b) ++ c) = String x (a ++ b ++ c)). by rewrite IH.
Qed.

Lemma split_go_app cur a b :
  Path.split_go cur (a ++ String Path.slash b)
  = (Path.split_go cur a ++ Path.split b)%list.
Proof.
  revert cur. induction a as [|c a IH]; intros cur.
  - change ("" ++ String Path.slash b) with (String Path.slash b). reflexivity.
  - change (String c a ++ String Path.slash b) with (String c (a ++ String Path.slash b)).
    simpl. destruct (Ascii.eqb c Path.slash).
    + simpl. f_equal. apply IH.
    + apply IH.
Qed.

Lemma split_app a b :
  Path.split (a ++ "/" ++ b) = (Path.split a ++ Path.split b)%list.
Proof. apply split_go_app. Qed.

Lemma split_go_no_slash cur s :
  no_slash s = true → Path.split_go cur s = [String.rev_app cur s].
Proof.
  revert cur. induction s as [|c s IH]; intros cur Hs; [done|].
  simpl in *. apply andb_prop in Hs as [Hc Hs].
  destruct (Ascii.eqb c Path.slash); [done|]. by rewrite IH.
Qed.

Lemma plain_split seg : plain seg = true → Path.split seg = [seg].
Proof.
  unfold plain. intros H. repeat (apply andb_prop in H as [H _]).
  by apply split_go_no_slash.
Qed.

Lemma plain_nonempty seg : plain seg = true → seg ≠ "".
Proof. unfold plain. by intros H ->. Qed.

Lemma plain_relative seg : plain seg = true → Path.isAbsolute seg = false.
Proof.
  unfold plain. intros H. repeat (apply andb_prop in H as [H _]).
  destruct seg as [|c seg]; [done|]. simpl in *.
  by destruct (Ascii.eqb c Path.slash).
Qed.

Lemma no_slash_endsWithSlash s : no_slash s = true → Path.endsWithSlash s = false.
Proof.
  induction s as [|c s IH]; [done|]. simpl. intros [Hc Hs]%andb_prop.
  destruct s; [|by apply IH]. by destruct (Ascii.eqb c Path.slash).
Qed.

Lemma normalize_go_app aar res l1 l2 :
  Path.normalize_go aar res (l1 ++ l2)
  = Path.normalize_go aar (rev (Path.normalize_go aar res l1)) l2.
Proof.
  revert res. induction l1 as [|seg l1 IH]; intros res; simpl.
  { by rewrite rev_involutive. }
  repeat case_match; apply IH.
Qed.

Lemma normalize_go_plain aar res l seg :
  plain seg = true →
  Path.normalize_go aar res (l ++ [seg]) = (Path.normalize_go aar res l ++ [seg])%list.
Proof.
  intros Hseg. rewrite normalize_go_app. simpl.
  unfold plain in Hseg.
  apply andb_prop in Hseg as [[[_ H1]%andb_prop H2]%andb_prop H3].
  apply negb_true_iff in H1, H2, H3. rewrite H1, H2, H3. simpl.
  by rewrite rev_involutive.
Qed.

Lemma join_with_snoc segs seg :
  Path.join_with "/" (segs ++ [seg])
  = match segs with
    | [] => seg
    | _ => Path.join_with "/" segs ++ "/" ++ seg
    end.
Proof.
  induction segs as [|x segs IH]; [done|].
  change ((x :: segs) ++ [seg])%list with (x :: (segs ++ [seg]))%list.
  destruct segs as [|y segs]; [done|].
  change (Path.join_with "/" (x :: (y :: segs) ++ [seg]))
    with (x ++ "/" ++ Path.join_with "/" ((y :: segs) ++ [seg])).
  rewrite IH.
  change (Path.join_with "/" (x :: y :: segs))
    with (x ++ "/" ++ Path.join_with "/" (y :: segs)).
  by rewrite !string_app_assoc.
Qed.

Lemma ends_with_join_with segs seg :
  plain seg = true → ends_with seg (Path.join_with "/" (segs ++ [seg])).
Proof.
  intros Hseg. rewrite join_with_snoc. destruct segs as [|x segs].
  - exists []. by apply plain_split.
  - eexists. rewrite split_app, (plain_split seg) by done. reflexivity.
Qed.

Lemma join_with_snoc_nonempty segs seg :
  seg ≠ "" → Path.join_with "/" (segs ++ [seg]) ≠ "".
Proof.
  intros Hseg. rewrite join_with_snoc. destruct segs as [|x segs]; [done|].
  generalize (Path.join_with "/" (x :: segs)). intros [|c a]; discriminate.
Qed.

Lemma ends_with_rooted seg p : ends_with seg p → ends_with seg ("/" ++ p).
Proof.
  intros [l Hl]. exists ("" :: l).
  change ("/" ++ p) with ("" ++ "/" ++ p). by rewrite split_app, Hl.
Qed.

Lemma ends_with_nonempty seg s : plain seg = true → ends_with seg s → s ≠ "".
Proof.
  intros Hseg [l Hl] ->. change (Path.split "") with [""] in Hl.
  destruct l as [|x l]; simpl in Hl.
  - injection Hl as <-. done.
  - injection Hl as _ Hl. by destruct l.
Qed.

(** Normalizing keeps a plain last segment. *)
Lemma ends_with_normalizeString seg path aar :
  plain seg = true → ends_with seg path →
  ends_with seg (Path.normalizeString path aar)
  ∧ Path.normalizeString path aar ≠ "".
Proof.
  intros Hseg [l Hl]. unfold Path.normalizeString.
  rewrite Hl, normalize_go_plain by done. split.
  - by apply ends_with_join_with.
  - apply join_with_snoc_nonempty. by apply plain_nonempty.
Qed.

Lemma ends_with_normalizeString_slash seg path aar :
  plain seg = true → ends_with seg path →
  ends_with seg (Path.normalizeString (path ++ "/") aar)
  ∧ Path.normalizeString (path ++ "/") aar ≠ "".
Proof.
  intros Hseg [l Hl]. unfold Path.normalizeString.
  change (path ++ "/") with (path ++ "/" ++ "").
  rewrite split_app, Hl. change (Path.split "") with [""].
  rewrite normalize_go_app, normalize_go_plain by done. simpl.
  rewrite rev_involutive. split.
  - by apply ends_with_join_with.
  - apply join_with_snoc_nonempty. by apply plain_nonempty.
Qed.

Lemma ends_with_prefixed seg a s : ends_with seg s → ends_with seg (a ++ "/" ++ s).
Proof.
  intros [l Hl]. exists (Path.split a ++ l)%list.
  by rewrite split_app, Hl, app_assoc.
Qed.

(** [resolve(root, seg)] ends in [seg]. *)
Lemma resolve_ends_with cwd root seg :
  plain seg = true → ends_with seg (Path.resolve cwd [root; seg]).
Proof.
  intros Hseg.
  assert (ends_with seg seg) as Hself.
  { exists []. by apply plain_split. }
  assert (∀ path flag,
            ends_with seg path →
            ends_with seg
              (let p := Path.normalizeString (path ++ "/") (negb flag) in
               if flag then "/" ++ p else if String.eqb p "" then "." else p))
    as Hout.
  { intros path flag Hpath.
    destruct (ends_with_normalizeString_slash seg path (negb flag) Hseg Hpath) as [Hp Hne].
    cbv zeta. destruct flag; simpl negb in *; [by apply ends_with_rooted|].
    by destruct (String.eqb_spec (Path.normalizeString (path ++ "/") true) ""). }
  assert (∃ path flag, Path.resolve_go [seg; root; cwd] "" = (path ++ "/", flag)
                       ∧ ends_with seg path) as (path & flag & Hgo & Hpath).
  { unfold Path.resolve_go.
    destruct (String.eqb_spec seg "") as [->|_]; [done|].
    rewrite (plain_relative seg Hseg).
    change (seg ++ "/" ++ "") with (seg ++ "/").
    assert (∀ a p, a ++ "/" ++ p ++ "/" = (a ++ "/" ++ p) ++ "/") as Hassoc.
    { intros a p. by rewrite !string_app_assoc. }
    destruct (String.eqb root ""), (String.eqb cwd "");
      repeat case_match; repeat rewrite Hassoc;
      (eexists _, _; split; [reflexivity|]); auto using ends_with_prefixed. }
  unfold Path.resolve. simpl rev. simpl app. rewrite Hgo.
  specialize (Hout path flag Hpath). cbv zeta in Hout. by destruct flag.
Qed.

(** [join(..., seg)] ends in [seg]. *)
Lemma join_ends_with args seg :
  plain seg = true → ends_with seg (Path.join (args ++ [seg])).
Proof.
  intros Hseg. unfold Path.join.
  rewrite filter_app, filter_cons_True, filter_nil by by apply plain_nonempty.
  set (parts := filter (λ a, a ≠ "") args).
  destruct (parts ++ [seg])%list as [|x rest] eqn:Hparts.
  { by destruct parts. }
  rewrite <- Hparts. clear Hparts x rest.
  pose proof (ends_with_join_with parts seg Hseg) as Hjoined.
  pose proof (join_with_snoc_nonempty parts seg (plain_nonempty _ Hseg)) as Hne.
  assert (Path.endsWithSlash (Path.join_with "/" (parts ++ [seg])) = false) as Hslash.
  { assert (no_slash seg = true) as Hns.
    { unfold plain in Hseg. by repeat (apply andb_prop in Hseg as [Hseg _]). }
    rewrite join_with_snoc. destruct parts; [by apply no_slash_endsWithSlash|].
    rewrite !endsWithSlash_app; [by apply no_slash_endsWithSlash|..].
    - by apply plain_nonempty.
    - by destruct seg. }
  unfold Path.normalize.
  rewrite (proj2 (String.eqb_neq _ _) Hne), Hslash.
  destruct (ends_with_normalizeString seg _
              (negb (Path.isAbsolute (Path.join_with "/" (parts ++ [seg])))) Hseg Hjoined)
    as [Hp Hpne].
  rewrite (proj2 (String.eqb_neq _ _) Hpne).
  destruct (Path.isAbsolute _); [by apply ends_with_rooted|done].
Qed.

(** The location of a path that ends in [seg] ends in [seg]. *)
Lemma locate_ends_with E seg s :
  plain seg = true → ends_with seg s →
  s ≠ "" ∧ ∃ l, locate E s = (l ++ [seg])%list.
Proof.
  intros Hseg Hs. split; [by eapply ends_with_nonempty|].
  unfold locate, Path.segments.
  assert (ends_with seg (if Path.isAbsolute s then s else cwd E ++ "/" ++ s)) as [l Hl].
  { destruct (Path.isAbsolute s); [done|]. by apply ends_with_prefixed. }
  rewrite Hl, normalize_go_plain by done. eauto.
Qed.

Lemma locate_differ E seg1 seg2 s1 s2 :
  plain seg1 = true → plain seg2 = true → seg1 ≠ seg2 →
  ends_with seg1 s1 → ends_with seg2 s2 →
  locate E s1 ≠ locate E s2.
Proof.
  intros H1 H2 Hne Hs1 Hs2 Heq.
  destruct (locate_ends_with E seg1 s1 H1 Hs1) as [_ [l1 Hl1]].
  destruct (locate_ends_with E seg2 s2 H2 Hs2) as [_ [l2 Hl2]].
  rewrite Hl1, Hl2 in Heq. by apply app_inj_tail in Heq as [_ ?].
Qed.

End PathLemmas.

(** ** The files of a project are distinct locations *)
Section Locations.
Context (E : Env) (root : string).

Lemma tsconfig_ends : ends_with "tsconfig.json" (tsconfigPath E root).
Proof. by apply resolve_ends_with. Qed.

Lemma modules_ends : ends_with "modules" (resolve E [root; "modules"]).
Proof. by apply resolve_ends_with. Qed.

Lemma config_ends :
  ends_with "replikit.config.ts" (resolve E [root; "replikit.config.ts"]).
Proof. by apply resolve_ends_with. Qed.

Lemma manifest_ends c : ends_with "package.json" (manifest_path c).
Proof. by apply (join_ends_with [pm_root c]). Qed.

Lemma external_manifest_ends path :
  ends_with "package.json" (external_manifest root path).
Proof. by apply (join_ends_with [externalPath root; path]). Qed.

Lemma parent_differs (loc : list string) : loc ≠ [] → parent loc ≠ loc.
Proof.
  intros Hne Heq. apply (f_equal length) in Heq.
  rewrite (app_removelast_last "" Hne) in Heq at 2.
  rewrite length_app in Heq. simpl in Heq. unfold parent in Heq. lia.
Qed.

(** What a completed [init] leaves: the four locations it created on
    top of the disk it found (with the root, if it had to be made),
    and the fields it assigned. *)
Lemma init_ok_run (s s' : State) :
  init E root s = (Ok tt, s') →
  ∃ c files,
    pm s = Some c ∧
    (∀ loc, is_Some (fs s !! loc) → is_Some (files !! loc)) ∧
    (pathExists E root s = (Ok true, s) ∨
     ensure_go (fs s) [] (locate E root) = (None, files) ∧ root ≠ "") ∧
    let manifest := {| name := project_name root; private := true;
                       dependencies := ∅; devDependencies := ∅ |} in
    let text := serialize E {| modules := [] |} in
    fs s' =
      <[locate E (resolve E [root; "replikit.config.ts"]) := File (Text text)]>
      (<[locate E (manifest_path c) := File (Json (manifest_doc manifest))]>
      (<[locate E (tsconfigPath E root) := File (Json (initial_tsconfig root))]>
      (<[locate E (resolve E [root; "modules"]) := Dir]> files))) ∧
    configManager s' = {| modules := [] |} ∧
    configPath s' = Some (resolve E [root; "replikit.config.ts"]) ∧
    pm s' = Some {| pm_type := pm_type c; pm_root := pm_root c;
                    pm_manifest := Some manifest |}.
Proof.
  intros H. unfold init in H.
  apply bind_ok in H as (? & s1 & [= <- <-] & H).
  apply bind_ok in H as (ex & s2 & Hex & H).
  apply bind_ok in H as ([] & s3 & Hens & H).
  apply bind_ok in H as ([] & s4 & Hmk & H).
  apply bind_ok in H as ([] & s5 & Hts & H).
  apply bind_ok in H as ([] & s6 & Hpi & H).
  apply bind_ok in H as ([] & s7 & Hsave & H).
  apply bind_ok in H as ([] & s8 & [= <-] & H).
  apply pathExists_inv in Hex as Hex'. destruct Hex' as [-> _].
  assert (configManager s3 = {| modules := [] |} ∧ pm s3 = pm s ∧
          (∀ loc, is_Some (fs s !! loc) → is_Some (fs s3 !! loc)) ∧
          (pathExists E root s = (Ok true, s) ∨
           ensure_go (fs s) [] (locate E root) = (None, fs s3) ∧ root ≠ ""))
    as (Hcm3 & Hpm3 & Hgrow & Hroot).
  { destruct ex; simpl in Hens.
    - injection Hens as <-. repeat split; try done.
      left. revert Hex. unfold pathExists. simpl.
      repeat case_match; intros ?; by simplify_eq.
    - unfold ensureDir, fs_error, throw in Hens.
      destruct (String.eqb_spec root ""); [done|].
      simpl in Hens.
      destruct (ensure_go (fs s) [] (locate E root)) as [[code|] files] eqn:Hgo; [done|].
      injection Hens as <-. repeat split; try done; [|by right].
      intros loc [nd Hnd]. simpl.
      destruct (ensure_go_grows _ _ _ _ _ loc Hgo) as [->|[? _]]; [eauto|congruence]. }
  apply mkdir_inv in Hmk as [[_ ->]|(? & ? & _)]; [|done].
  apply write_inv in Hts as [(_ & _ & _ & ->)|(? & ? & _)]; [|done].
  apply PMController_init_inv in Hpi as [(c & Hc & _ & ->)|(? & ? & _)]; [|done].
  simpl in Hc. rewrite Hpm3 in Hc.
  erewrite PMController_save_some in Hsave; [|reflexivity..].
  apply write_inv in Hsave as [(_ & _ & _ & ->)|(? & ? & _)]; [|done].
  erewrite saveConfig_some in H; [|done..].
  apply write_inv in H as [(_ & _ & _ & ->)|(? & ? & _)]; [|done].
  exists c, (fs s3). repeat split; try done.
  cbn [fs add_log set_fs set_pm set_configPath set_configManager configManager].
  by rewrite Hcm3.
Qed.

Lemma located seg path :
  plain seg = true → ends_with seg path → path ≠ "" ∧ locate E path ≠ [].
Proof.
  intros Hseg Hpath. destruct (locate_ends_with E seg path Hseg Hpath) as [Hne [l Hl]].
  split; [done|]. rewrite Hl. by destruct l.
Qed.

Lemma pathExists_true path (s : State) :
  pathExists E path s = (Ok true, s) ↔
  path ≠ "" ∧ is_Some (node_at (fs s) (locate E path)).
Proof.
  unfold pathExists. destruct (String.eqb_spec path "") as [->|Hne].
  { split; [done|]. by intros [? _]. }
  destruct (node_at (fs s) (locate E path)) as [nd|].
  - split; [eauto|done].
  - split; [done|]. by intros [_ [? ?]].
Qed.

Lemma node_at_insert_is_Some (files : FS) k nd loc :
  is_Some (node_at files loc) → is_Some (node_at (<[k:=nd]> files) loc).
Proof.
  destruct loc as [|seg loc]; [done|]. simpl.
  destruct (decide (k = seg :: loc)) as [->|Hne].
  - rewrite lookup_insert_eq. eauto.
  - by rewrite lookup_insert_ne.
Qed.

Lemma ensure_go_creates (files : FS) above rest files' :
  ensure_go files above rest = (None, files') →
  rest ≠ [] → is_Some (files' !! (above ++ rest)%list).
Proof.
  revert files above. induction rest as [|seg rest IH]; intros files above Hgo Hne; [done|].
  simpl in Hgo.
  assert (∀ files1, is_Some (files1 !! (above ++ [seg])%list) →
                    ensure_go files1 (above ++ [seg]) rest = (None, files') →
                    is_Some (files' !! (above ++ seg :: rest)%list)) as Hstep.
  { intros files1 Hhas Hgo1. destruct rest as [|seg' rest].
    - simpl in Hgo1. by injection Hgo1 as <-.
    - apply IH in Hgo1; [|done]. by rewrite <- app_assoc in Hgo1. }
  destruct (files !! (above ++ [seg])%list) as [[|c]|] eqn:Hl.
  - apply (Hstep files); [eauto|done].
  - done.
  - apply (Hstep (<[(above ++ [seg])%list:=Dir]> files)); [|done].
    rewrite lookup_insert_eq. eauto.
Qed.

(** [init] on a root that exists and already has something at
    [modules]: [mkdir] fails, after [configManager.init()] has run. *)
Lemma init_blocked (s : State) :
  pathExists E root s = (Ok true, s) →
  pathExists E (resolve E [root; "modules"]) s = (Ok true, s) →
  init E root s
  = (Throw (FileSystemError EEXIST (resolve E [root; "modules"])),
     set_configManager {| modules := [] |} s).
Proof.
  intros Hroot Hmod. unfold init.
  set (s1 := set_configManager {| modules := [] |} s).
  rewrite (bind_step _ _ s tt s1) by reflexivity.
  assert (pathExists E root s1 = (Ok true, s1)) as Hroot1.
  { revert Hroot. unfold pathExists. simpl.
    repeat case_match; intros ?; by simplify_eq. }
  rewrite (bind_step _ _ s1 true s1 Hroot1). simpl negb. cbv iota.
  rewrite (bind_step _ _ s1 tt s1) by reflexivity.
  apply bind_throw.
  apply pathExists_true in Hmod as [Hne [nd Hnd]].
  unfold mkdir, fs_error, throw.
  rewrite (proj2 (String.eqb_neq _ _) Hne). simpl. by rewrite Hnd.
Qed.

(** X1: for any root, a completed [setPackageManager(type); init()]
    leaves a manifest named after the base name of the root and
    private, a [modules] directory under the root, and a path-mapping
    file that is the initial document, its [paths] being exactly the
    two entries of the project's own scope. *)
Theorem init_layout (type : PMType) (s s' : State) :
  (setPackageManager root type;; init E root) s = (Ok tt, s') →
  file_doc E s' (Path.join [root; "package.json"])
    = Some (manifest_doc {| name := Path.basename root; private := true;
                            dependencies := ∅; devDependencies := ∅ |}) ∧
  is_dir E s' (resolve E [root; "modules"]) = true ∧
  file_doc E s' (tsconfigPath E root) = Some (initial_tsconfig root) ∧
  mapping_paths E root s' =
    Some (<["@" ++ Path.basename root ++ "/*/typings" := JArr [JStr "*/typings"]]>
         (<["@" ++ Path.basename root ++ "/*" := JArr [JStr "*/src"]]> ∅)).
Proof.
  intros H. apply bind_ok in H as (? & s0 & [= <- <-] & H).
  apply init_ok_run in H as (c & files & Hc & _ & _ & Hfs & _).
  injection Hc as <-. cbv zeta in Hfs.
  change (manifest_path (createPMController type root))
    with (Path.join [root; "package.json"]) in Hfs.
  pose proof (join_ends_with [root] "package.json" eq_refl) as package_ends.
  change ([root] ++ ["package.json"])%list with [root; "package.json"] in package_ends.
  destruct (located "tsconfig.json" _ eq_refl tsconfig_ends) as [Hts Hlts].
  destruct (located "modules" _ eq_refl modules_ends) as [Hmod Hlmod].
  destruct (located "package.json" _ eq_refl package_ends) as [Hpkg Hlpkg].
  pose proof (locate_differ E "replikit.config.ts" "tsconfig.json" _ _ eq_refl eq_refl
                ltac:(done) config_ends tsconfig_ends) as Hcfg_ts.
  pose proof (locate_differ E "replikit.config.ts" "modules" _ _ eq_refl eq_refl
                ltac:(done) config_ends modules_ends) as Hcfg_mod.
  pose proof (locate_differ E "replikit.config.ts" "package.json" _ _ eq_refl eq_refl
                ltac:(done) config_ends package_ends) as Hcfg_pkg.
  pose proof (locate_differ E "package.json" "tsconfig.json" _ _ eq_refl eq_refl
                ltac:(done) package_ends tsconfig_ends) as Hpkg_ts.
  pose proof (locate_differ E "package.json" "modules" _ _ eq_refl eq_refl
                ltac:(done) package_ends modules_ends) as Hpkg_mod.
  pose proof (locate_differ E "tsconfig.json" "modules" _ _ eq_refl eq_refl
                ltac:(done) tsconfig_ends modules_ends) as Hts_mod.
  assert (file_doc E s' (tsconfigPath E root) = Some (initial_tsconfig root)) as Hdoc.
  { rewrite file_doc_lookup by done.
    rewrite Hfs. rewrite !lookup_insert_ne by done. by rewrite lookup_insert_eq. }
  split; [|split; [|split]].
  - rewrite file_doc_lookup by done.
    rewrite Hfs. rewrite lookup_insert_ne by done. by rewrite lookup_insert_eq.
  - assert (fs s' !! locate E (resolve E [root; "modules"]) = Some Dir) as Hlook.
    { rewrite Hfs. rewrite !lookup_insert_ne by done. by rewrite lookup_insert_eq. }
    unfold is_dir, node_at.
    destruct (locate E (resolve E [root; "modules"])) as [|x l]; [done|].
    rewrite Hlook. by rewrite (proj2 (String.eqb_neq _ _) Hmod).
  - done.
  - unfold mapping_paths. rewrite Hdoc. reflexivity.
Qed.

(** X2: [init] starts from an empty declared-module set: when it
    completes, whatever was declared before is forgotten, the
    configuration path is [replikit.config.ts] under the root and the
    file there holds the serialization of the empty set; the manifest
    in memory is named after the root and private. *)
Theorem init_resets_declared (s s' : State) :
  init E root s = (Ok tt, s') →
  modules (configManager s') = [] ∧
  configPath s' = Some (resolve E [root; "replikit.config.ts"]) ∧
  fs s' !! locate E (resolve E [root; "replikit.config.ts"])
    = Some (File (Text (serialize E {| modules := [] |}))) ∧
  ∃ c, pm s = Some c ∧
       pm s' = Some {| pm_type := pm_type c; pm_root := pm_root c;
                       pm_manifest := Some {| name := Path.basename root;
                                              private := true;
                                              dependencies := ∅;
                                              devDependencies := ∅ |} |}.
Proof.
  intros H. apply init_ok_run in H as (c & files & Hc & _ & _ & Hfs & Hcm & Hcp & Hpm).
  cbv zeta in *. rewrite Hcm, Hcp, Hfs, lookup_insert_eq. eauto 10.
Qed.

(** X3: on a root that exists and already has something at [modules],
    [init] fails with EEXIST from [mkdir], and its one effect is in
    memory: [configManager.init()] has already emptied the
    declared-module set. *)
Theorem init_existing_project (s : State) :
  pathExists E root s = (Ok true, s) →
  pathExists E (resolve E [root; "modules"]) s = (Ok true, s) →
  init E root s
  = (Throw (FileSystemError EEXIST (resolve E [root; "modules"])),
     set_configManager {| modules := [] |} s) ∧
  modules (configManager (snd (init E root s))) = [].
Proof.
  intros Hroot Hmod. rewrite (init_blocked s Hroot Hmod). done.
Qed.

(** X4: [init] cannot be run twice: after a completed [init], a second
    one on the same root fails with EEXIST at [modules] and changes
    nothing. *)
Theorem init_twice (s s' : State) :
  init E root s = (Ok tt, s') →
  init E root s' = (Throw (FileSystemError EEXIST (resolve E [root; "modules"])), s').
Proof.
  intros H. apply init_ok_run in H as (c & files & _ & Hgrow & Hroot & Hfs & Hcm & _).
  cbv zeta in Hfs.
  assert (set_configManager {| modules := [] |} s' = s') as Hsame.
  { destruct s'. simpl in *. by subst. }
  rewrite <- Hsame at 2. apply init_blocked.
  - apply pathExists_true.
    assert (root ≠ "" ∧ is_Some (node_at files (locate E root))) as [Hne Hthere].
    { destruct Hroot as [Hroot|[Hgo Hne]].
      - apply pathExists_true in Hroot as [Hne Hex]. split; [done|].
        destruct (locate E root); [done|]. by apply Hgrow.
      - split; [done|]. destruct (locate E root) as [|x l] eqn:Hl; [done|].
        by apply (ensure_go_creates _ [] (x :: l)) in Hgo. }
    split; [done|]. rewrite Hfs. by do 4 apply node_at_insert_is_Some.
  - apply pathExists_true.
    destruct (located "modules" _ eq_refl modules_ends) as [Hmod Hlmod].
    split; [done|]. rewrite Hfs. do 3 apply node_at_insert_is_Some.
    destruct (locate E (resolve E [root; "modules"])) as [|x l] eqn:Hl; [done|].
    simpl. rewrite lookup_insert_eq. eauto.
Qed.

(** X5: without a package manager ([setPackageManager] or [load] not
    called) [init] never completes, and never writes a manifest or a
    configuration: what it may have done by then is create the root,
    [modules] and [tsconfig.json]. *)
Theorem init_without_package_manager (s : State) r s' :
  pm s = None →
  init E root s = (r, s') →
  (∃ e, r = Throw e) ∧
  ∃ δ, log s' = (log s ++ δ)%list ∧
       ∀ ev, ev ∈ δ →
         ev = EnsureDir root ∨ ev = Mkdir (resolve E [root; "modules"]) ∨
         ev = WriteJSON (tsconfigPath E root) (initial_tsconfig root).
Proof.
  intros Hpm H.
  apply init_log in H as (pre & n & c & text & Hpre & Hn & Hlog & Hok).
  destruct Hn as [Hn|Hc]; [|congruence].
  split.
  - destruct r as [[]|e]; [|eauto]. specialize (Hok eq_refl). lia.
  - eexists. split; [exact Hlog|]. intros ev [Hev|Hev]%elem_of_app.
    + destruct Hpre as [-> | ->]; [by apply elem_of_nil in Hev|].
      apply elem_of_cons in Hev as [->|Hev]; [auto|by apply elem_of_nil in Hev].
    + destruct n as [|[|[|n]]]; simpl in Hev; [| | |lia].
      * by apply elem_of_nil in Hev.
      * apply elem_of_cons in Hev as [->|Hev]; [auto|by apply elem_of_nil in Hev].
      * apply elem_of_cons in Hev as [->|Hev]; [auto|].
        apply elem_of_cons in Hev as [->|Hev]; [auto|by apply elem_of_nil in Hev].
Qed.

End Locations.

(** ** More on linking external repositories *)
Section ExternalRepoMore.
Context (E : Env) (root : string).

Lemma file_doc_read (s : State) path doc :
  file_doc E s path = Some doc → readJSON E path s = (Ok doc, s).
Proof.
  unfold file_doc. destruct (readJSON E path s) as [r s1] eqn:Hr.
  apply readJSON_inv in Hr as [-> _]. destruct r; by intros [= ->].
Qed.

Lemma file_doc_none_read (s : State) path :
  file_doc E s path = None → ∃ e, readJSON E path s = (Throw e, s).
Proof.
  unfold file_doc. destruct (readJSON E path s) as [r s1] eqn:Hr.
  apply readJSON_inv in Hr as [-> _]. destruct r; [done|eauto].
Qed.

(** A completed call, with the state it produces. *)
Lemma addExternalRepo_ok path (s s' : State) :
  addExternalRepo E root path s = (Ok tt, s') →
  ∃ packageJson tsconfig tsconfig',
    file_doc E s (external_manifest root path) = Some packageJson ∧
    file_doc E s (tsconfigPath E root) = Some tsconfig ∧
    assign_paths packageJson path tsconfig = Ok tsconfig' ∧
    node_at (fs s) (parent (locate E (tsconfigPath E root))) = Some Dir ∧
    s' = add_log (WriteJSON (tsconfigPath E root) tsconfig')
           (set_fs (<[locate E (tsconfigPath E root) := File (Json tsconfig')]> (fs s)) s).
Proof.
  unfold addExternalRepo. intros H.
  apply bind_ok in H as (pj & s1 & Hm & H). apply readJSON_inv in Hm as [-> Hpj].
  apply bind_ok in H as (ts & s1 & Hm & H). apply readJSON_inv in Hm as [-> Hts].
  apply bind_ok in H as (ts' & s1 & Hm & H). unfold lift in Hm. injection Hm as Hassign <-.
  exists pj, ts, ts'. repeat split; try done.
  - revert H. unfold writeJSON, write, fs_error, throw.
    repeat case_match; intros ?; by simplify_eq.
  - by apply write_inv in H as [(_ & _ & _ & ->)|(? & [=] & _)].
Qed.

(** X6: [writeJSON] is the last step of [addExternalRepo], so every
    failure that comes before it leaves everything as it was: the call
    throws with the state unchanged when the linked manifest cannot be
    read, when the path-mapping file cannot be read, or when the
    assignment to [compilerOptions.paths] throws on the documents read
    (a [null] document, [compilerOptions] missing, [null] or a
    primitive). *)
Theorem addExternalRepo_fails_before_write path (s : State) :
  file_doc E s (external_manifest root path) = None ∨
  file_doc E s (tsconfigPath E root) = None ∨
  (∃ packageJson tsconfig e,
     file_doc E s (external_manifest root path) = Some packageJson ∧
     file_doc E s (tsconfigPath E root) = Some tsconfig ∧
     assign_paths packageJson path tsconfig = Throw e) →
  ∃ e, addExternalRepo E root path s = (Throw e, s).
Proof.
  unfold addExternalRepo.
  destruct (file_doc E s (external_manifest root path)) as [pj|] eqn:Hpj.
  2:{ intros _. destruct (file_doc_none_read _ _ Hpj) as [e He].
      exists e. by apply bind_throw. }
  rewrite (bind_step _ _ _ _ _ (file_doc_read _ _ _ Hpj)).
  destruct (file_doc E s (tsconfigPath E root)) as [ts|] eqn:Hts.
  2:{ intros _. destruct (file_doc_none_read _ _ Hts) as [e He].
      exists e. by apply bind_throw. }
  rewrite (bind_step _ _ _ _ _ (file_doc_read _ _ _ Hts)).
  intros [[=]|[[=]|(pj' & ts' & e & [= <-] & [= <-] & Hassign)]].
  exists e. apply bind_throw. unfold lift. by rewrite Hassign.
Qed.

(** X7: a path-mapping document without [compilerOptions] makes
    [addExternalRepo] throw a TypeError (a property read on
    [undefined]) and nothing is written. *)
Theorem addExternalRepo_no_compilerOptions path (s : State) packageJson tsconfig :
  file_doc E s (external_manifest root path) = Some packageJson →
  file_doc E s (tsconfigPath E root) = Some tsconfig →
  JS.get "compilerOptions" tsconfig = None →
  addExternalRepo E root path s = (Throw TypeError, s).
Proof.
  intros Hpj Hts Hco. unfold addExternalRepo.
  rewrite (bind_step _ _ _ _ _ (file_doc_read _ _ _ Hpj)).
  rewrite (bind_step _ _ _ _ _ (file_doc_read _ _ _ Hts)).
  apply bind_throw. unfold lift, assign_paths. rewrite Hco. by destruct tsconfig.
Qed.

(** X8: a completed [addExternalRepo] on a document whose
    [compilerOptions] is an object rewrites the [paths] property and
    nothing else: every other top-level property and every other
    compiler option is kept.  When the old [paths] is not a string,
    the new one is the old entries (none when the property was
    missing, [null], a boolean or a number; the indexed items of an
    array) with the two of the linked repository set. *)
Theorem addExternalRepo_keeps_document path (s s' : State) tsconfig options :
  file_doc E s (tsconfigPath E root) = Some tsconfig →
  JS.get "compilerOptions" tsconfig = Some (JObj options) →
  (∀ str, options !! "paths" ≠ Some (JStr str)) →
  addExternalRepo E root path s = (Ok tt, s') →
  ∃ packageJson tsconfig' options',
    file_doc E s (external_manifest root path) = Some packageJson ∧
    file_doc E s' (tsconfigPath E root) = Some tsconfig' ∧
    JS.get "compilerOptions" tsconfig' = Some (JObj options') ∧
    (∀ k, k ≠ "compilerOptions" → JS.get k tsconfig' = JS.get k tsconfig) ∧
    (∀ k, k ≠ "paths" → options' !! k = options !! k) ∧
    options' !! "paths" = Some (JObj (merged_paths packageJson path (options !! "paths"))).
Proof.
  intros Hts Hco _ Hrun.
  apply addExternalRepo_run in Hrun
    as [(e & [=] & _)|(pj & ts & ts' & _ & Hpj & Hts0 & Hassign & Hts' & _)].
  rewrite Hts in Hts0. injection Hts0 as <-.
  exists pj, ts', (<["paths" := JObj (merged_paths pj path (options !! "paths"))]> options).
  split; [done|]. split; [done|].
  unfold assign_paths in Hassign.
  destruct tsconfig as [| | | | |top]; try done. simpl in Hco.
  simpl in Hassign. rewrite Hco in Hassign.
  destruct pj; try done; injection Hassign as <-; simpl;
    (split; [by rewrite lookup_insert_eq|]);
    (split; [by intros k Hk; rewrite lookup_insert_ne|]);
    (split; [by intros k Hk; rewrite lookup_insert_ne|]);
    by rewrite lookup_insert_eq.
Qed.

(** X9: when the linked manifest is an object without a [name], the
    template literal prints [undefined]: a completed call sets the keys
    "@undefined/*" and "@undefined/*/typings". *)
Theorem addExternalRepo_nameless_manifest path (s s' : State) packageJson paths :
  file_doc E s (external_manifest root path) = Some packageJson →
  JS.get "name" packageJson = None →
  mapping_paths E root s = Some paths →
  addExternalRepo E root path s = (Ok tt, s') →
  mapping_paths E root s' =
    Some (<["@undefined/*/typings" :=
              JArr [JStr ("../external/" ++ path ++ "/modules/*/typings")]]>
         (<["@undefined/*" :=
              JArr [JStr ("../external/" ++ path ++ "/modules/*/src")]]> paths)).
Proof.
  intros Hpj Hname Hpaths Hrun.
  apply addExternalRepo_run in Hrun
    as [(e & [=] & _)|(pj & ts & ts' & _ & Hpj' & Hts & Hassign & Hts' & _)].
  rewrite Hpj in Hpj'. injection Hpj' as <-.
  unfold mapping_paths in *. rewrite Hts in Hpaths. rewrite Hts'. simpl in *.
  assert (packageJson ≠ JNull) as Hnull.
  { intros ->. destruct (assign_paths_null path ts) as [e He]. congruence. }
  destruct (assign_paths_object packageJson path ts paths Hpaths Hnull)
    as (ts2 & Hassign2 & Hpaths2).
  rewrite Hassign in Hassign2. injection Hassign2 as <-.
  rewrite Hpaths2. unfold merged_paths, external_key, external_typings_key.
  rewrite Hname. reflexivity.
Qed.

Lemma external_keys_differ packageJson :
  external_key packageJson ≠ external_typings_key packageJson.
Proof.
  unfold external_key, external_typings_key. intros Heq.
  apply (inj (String.app "@")), (inj (String.app _)) in Heq. discriminate.
Qed.

Lemma merged_paths_again packageJson path paths :
  merged_paths packageJson path (Some (JObj (merged_paths packageJson path paths)))
  = merged_paths packageJson path paths.
Proof.
  unfold merged_paths. simpl.
  rewrite (insert_insert_ne _ (external_key packageJson) (external_typings_key packageJson))
    by apply external_keys_differ.
  by rewrite !insert_insert_eq.
Qed.

Lemma assign_paths_again packageJson path tsconfig tsconfig' :
  assign_paths packageJson path tsconfig = Ok tsconfig' →
  assign_paths packageJson path tsconfig' = Ok tsconfig'.
Proof.
  unfold assign_paths. intros H.
  destruct tsconfig as [| | | | |top]; try done. simpl in H.
  destruct (top !! "compilerOptions") as [[| | | |items|options]|] eqn:Hco;
    destruct packageJson; try done; injection H as <-; simpl.
  all: try (by rewrite Hco).
  all: rewrite !lookup_insert_eq; simpl; rewrite !lookup_insert_eq;
    rewrite merged_paths_again; by rewrite !insert_insert_eq.
Qed.

(** X10: linking the same repository a second time is a no-op on
    disk: after a completed [addExternalRepo(path)], the same call
    completes again and rewrites the path-mapping file with the
    content it already has. *)
Theorem addExternalRepo_twice path (s s1 : State) :
  addExternalRepo E root path s = (Ok tt, s1) →
  ∃ s2, addExternalRepo E root path s1 = (Ok tt, s2) ∧
        fs s2 = fs s1 ∧
        mapping_paths E root s2 = mapping_paths E root s1.
Proof.
  intros H.
  apply addExternalRepo_ok in H as (pj & ts & ts' & Hpj & Hts & Hassign & Hparent & ->).
  destruct (located E "tsconfig.json" _ eq_refl (tsconfig_ends E root)) as [Hne Hloc].
  pose proof (locate_differ E "package.json" "tsconfig.json" _ _ eq_refl eq_refl
                ltac:(done) (external_manifest_ends root path) (tsconfig_ends E root))
    as Hdiffer.
  set (s1 := add_log _ _).
  assert (file_doc E s1 (external_manifest root path) = Some pj) as Hpj1.
  { destruct (located E "package.json" _ eq_refl (external_manifest_ends root path)).
    rewrite file_doc_lookup in Hpj |- * by done. simpl.
    by rewrite lookup_insert_ne. }
  assert (file_doc E s1 (tsconfigPath E root) = Some ts') as Hts1.
  { by apply file_doc_written. }
  assert (writeJSON E (tsconfigPath E root) ts' s1
          = (Ok tt, add_log (WriteJSON (tsconfigPath E root) ts')
                      (set_fs (<[locate E (tsconfigPath E root) := File (Json ts')]> (fs s1))
                              s1))) as Hwrite.
  { unfold writeJSON, write. rewrite (proj2 (String.eqb_neq _ _) Hne). simpl.
    assert (node_at (<[locate E (tsconfigPath E root):=File (Json ts')]> (fs s))
              (locate E (tsconfigPath E root)) = Some (File (Json ts'))) as ->.
    { destruct (locate E (tsconfigPath E root)); [done|]. simpl.
      by rewrite lookup_insert_eq. }
    assert (node_at (<[locate E (tsconfigPath E root):=File (Json ts')]> (fs s))
              (parent (locate E (tsconfigPath E root))) = Some Dir) as ->; [|done].
    rewrite <- Hparent.
    destruct (parent (locate E (tsconfigPath E root))) as [|x l] eqn:Hp; [done|].
    simpl. rewrite lookup_insert_ne; [done|].
    rewrite <- Hp. intros Heq. by apply (parent_differs _ Hloc). }
  eexists. split.
  - unfold addExternalRepo.
    rewrite (bind_step _ _ _ _ _ (file_doc_read _ _ _ Hpj1)).
    rewrite (bind_step _ _ _ _ _ (file_doc_read _ _ _ Hts1)).
    unfold lift at 1. rewrite (assign_paths_again _ _ _ _ Hassign).
    rewrite (bind_step _ _ s1 ts' s1) by done. exact Hwrite.
  - assert (∀ e, file_doc E (add_log e (set_fs
              (<[locate E (tsconfigPath E root) := File (Json ts')]> (fs s1)) s1))
              (tsconfigPath E root) = Some ts') as Hts2.
    { intros e. by apply file_doc_written. }
    split.
    + simpl. by rewrite insert_insert_eq.
    + unfold mapping_paths. by rewrite Hts2, Hts1.
Qed.

(** X11: a completed [addExternalRepo] touches one location on disk,
    the path-mapping file: every other location holds what it held,
    the log gains exactly that one write, and the fields of the
    project are unchanged. *)
Theorem addExternalRepo_only_mapping_file path (s s' : State) :
  addExternalRepo E root path s = (Ok tt, s') →
  (∀ loc, loc ≠ locate E (tsconfigPath E root) → fs s' !! loc = fs s !! loc) ∧
  (∃ doc, log s' = (log s ++ [WriteJSON (tsconfigPath E root) doc])%list) ∧
  configManager s' = configManager s ∧ pm s' = pm s ∧ configPath s' = configPath s ∧
  file_doc E s' (external_manifest root path) = file_doc E s (external_manifest root path).
Proof.
  intros H.
  apply addExternalRepo_ok in H as (pj & ts & ts' & Hpj & Hts & Hassign & Hparent & ->).
  split; [|split; [eauto|]].
  - intros loc Hloc. simpl. by rewrite lookup_insert_ne.
  - repeat split.
    destruct (located E "package.json" _ eq_refl (external_manifest_ends root path)).
    pose proof (locate_differ E "package.json" "tsconfig.json" _ _ eq_refl eq_refl
                  ltac:(done) (external_manifest_ends root path) (tsconfig_ends E root)).
    rewrite !file_doc_lookup by done. simpl. by rewrite lookup_insert_ne.
Qed.

(** X12: when [compilerOptions] is an array the assignment lands on a
    property that is not part of the JSON text: the call completes,
    the path-mapping file is rewritten with the document it had, and
    no entry has been added. *)
Theorem addExternalRepo_array_options path (s s' : State) tsconfig items :
  file_doc E s (tsconfigPath E root) = Some tsconfig →
  JS.get "compilerOptions" tsconfig = Some (JArr items) →
  addExternalRepo E root path s = (Ok tt, s') →
  file_doc E s' (tsconfigPath E root) = Some tsconfig ∧
  mapping_paths E root s' = None.
Proof.
  intros Hts Hco Hrun.
  apply addExternalRepo_run in Hrun
    as [(e & [=] & _)|(pj & ts & ts' & _ & Hpj & Hts0 & Hassign & Hts' & _)].
  rewrite Hts in Hts0. injection Hts0 as <-.
  assert (ts' = tsconfig) as ->.
  { unfold assign_paths in Hassign. rewrite Hco in Hassign.
    destruct tsconfig; try done; destruct pj; try done; by injection Hassign as <-. }
  split; [done|]. unfold mapping_paths. rewrite Hts'. simpl.
  unfold paths_of. by rewrite Hco.
Qed.

End ExternalRepoMore.

(** ** More on modules and dependencies *)
Section ModulesMore.
Context (E : Env) (root : string).

Lemma declared_after_elem mods c x :
  x ∈ modules (declared_after mods c) ↔ x ∈ modules c ∨ x ∈ mods.
Proof.
  revert c. induction mods as [|m mods IH]; intros c; simpl.
  { rewrite elem_of_nil. tauto. }
  rewrite IH, elem_of_cons. unfold addModule_pure. case_bool_decide; simpl.
  - split; [tauto|]. intros [?|[->|?]]; tauto.
  - rewrite elem_of_app, elem_of_cons, elem_of_nil. tauto.
Qed.

Lemma declared_after_NoDup mods c :
  NoDup (modules c) → NoDup (modules (declared_after mods c)).
Proof.
  revert c. induction mods as [|m mods IH]; intros c Hc; [done|].
  simpl. apply IH. by apply addModule_pure_NoDup.
Qed.

Lemma declared_after_prefix mods c :
  modules c `prefix_of` modules (declared_after mods c).
Proof.
  revert c. induction mods as [|m mods IH]; intros c; [done|].
  simpl. etrans; [|apply IH]. unfold addModule_pure.
  case_bool_decide; [done|]. simpl. by apply prefix_app_r.
Qed.

Lemma declare_all_run mods (s : State) :
  declare_all mods s
  = (Ok tt, set_configManager (declared_after mods (configManager s)) s).
Proof.
  revert s. induction mods as [|m mods IH]; intros s.
  { simpl. by destruct s. }
  simpl. unfold mbind, M_bind, ConfigManager_addModule, modify.
  rewrite IH. by destruct s.
Qed.

(** X13: [addLocalModules] has no duplicate guard of its own, yet a
    completed call leaves every given name declared, keeps what was
    declared before it (in front, in order), introduces no duplicate,
    and writes the configuration exactly once, after the whole batch,
    even for an empty batch. *)
Theorem addLocalModules_declares mods (s s' : State) :
  addLocalModules E mods s = (Ok tt, s') →
  (∀ m, m ∈ modules (configManager s') ↔ m ∈ modules (configManager s) ∨ m ∈ mods) ∧
  modules (configManager s) `prefix_of` modules (configManager s') ∧
  (NoDup (modules (configManager s)) → NoDup (modules (configManager s'))) ∧
  ∃ p, configPath s = Some p ∧
       log s' = (log s ++ [WriteFile p (serialize E (configManager s'))])%list ∧
       fs s' !! locate E p = Some (File (Text (serialize E (configManager s')))).
Proof.
  unfold addLocalModules. intros H.
  rewrite (bind_step _ _ _ _ _ (declare_all_run mods s)) in H.
  destruct (configPath s) as [p|] eqn:Hp.
  2:{ rewrite saveConfig_none in H by done. discriminate. }
  erewrite saveConfig_some in H by done.
  apply write_inv in H as [(_ & _ & _ & ->)|(? & [=] & _)]. simpl.
  split; [by intros m; apply declared_after_elem|].
  split; [by apply declared_after_prefix|].
  split; [by apply declared_after_NoDup|].
  exists p. split; [done|]. split; [done|]. by rewrite lookup_insert_eq.
Qed.

Lemma getModule_some nm (s : State) c :
  pm s = Some c →
  getModule root nm s
  = (Ok {| project_root := root; module_name := nm; module_pm := pm_type c |}, s).
Proof. intros Hc. unfold getModule, this_pm, mbind, M_bind. by rewrite Hc. Qed.

Lemma ModuleManager_init_some m (s : State) files :
  module_process E m (fs s) = Some files →
  ModuleManager_init E m s = (Ok tt, set_fs files s).
Proof.
  intros Hp. unfold ModuleManager_init, gets, modify, mbind, M_bind. by rewrite Hp.
Qed.

Lemma saveConfig_throws (s : State) e s' :
  saveConfig E s = (Throw e, s') → s' = s.
Proof.
  destruct (configPath s) as [p|] eqn:Hp.
  - erewrite saveConfig_some by done. intros H.
    by apply write_inv in H as [([=] & _)|(? & _ & ->)].
  - rewrite saveConfig_none by done. by intros [= _ <-].
Qed.

(** X14: when [createModule] gets as far as the configuration write
    and that write fails, there is no rollback: the call throws, but
    the module has been initialized on disk and its name stays
    declared in memory, so a retry returns the module without ever
    persisting the declaration. *)
Theorem createModule_unsaved nm (s : State) c files e s1 :
  pm s = Some c →
  let m := {| project_root := root; module_name := nm; module_pm := pm_type c |} in
  module_process E m (fs s) = Some files →
  fullName m ∉ modules (configManager s) →
  createModule E root nm s = (Throw e, s1) →
  fs s1 = files ∧
  modules (configManager s1) = (modules (configManager s) ++ [fullName m])%list ∧
  log s1 = log s ∧
  ∀ files', module_process E m (fs s1) = Some files' →
            createModule E root nm s1 = (Ok m, set_fs files' s1).
Proof.
  intros Hpm m Hproc Hnew Hrun.
  assert (s1 = set_configManager (addModule_pure (fullName m) (configManager s))
                 (set_fs files s)) as ->.
  { unfold createModule in Hrun.
    rewrite (bind_step _ _ _ _ _ (getModule_some nm s c Hpm)) in Hrun. fold m in Hrun.
    rewrite (bind_step _ _ _ _ _ (ModuleManager_init_some m s files Hproc)) in Hrun.
    rewrite (bind_step _ _ (set_fs files s) false (set_fs files s)) in Hrun.
    2:{ unfold ConfigManager_checkModule, gets. simpl.
        by rewrite bool_decide_eq_false_2. }
    simpl negb in Hrun. cbv iota in Hrun.
    apply bind_inv in Hrun as [([] & s2 & _ & [=])|(e' & Hsave & _)].
    rewrite (bind_step _ _ (set_fs files s) tt
               (set_configManager (addModule_pure (fullName m) (configManager s))
                  (set_fs files s))) in Hsave by reflexivity.
    by apply saveConfig_throws in Hsave. }
  set (s1 := set_configManager _ _).
  split; [done|]. split.
  { simpl. unfold addModule_pure. by rewrite bool_decide_eq_false_2. }
  split; [done|].
  intros files' Hagain. unfold createModule.
  rewrite (bind_step _ _ _ _ _ (getModule_some nm s1 c Hpm)). fold m.
  rewrite (bind_step _ _ _ _ _ (ModuleManager_init_some m _ files' Hagain)).
  erewrite (bind_step _ _ _ true).
  2:{ unfold ConfigManager_checkModule, gets. simpl.
      rewrite bool_decide_eq_true_2; [done|]. apply addModule_pure_elem. }
  reflexivity.
Qed.

(** X15: a completed [addModules] is a completed install followed by
    the declaration of the batch: the package-manager process
    succeeded on the disk as it was, every name of the batch is
    declared, and the configuration was written once, after that. *)
Theorem addModules_completes mods dev (s s' : State) :
  addModules E mods dev s = (Ok tt, s') →
  ∃ c m files p,
    pm s = Some c ∧
    install_process E c mods dev (fs s) = Some (m, files) ∧
    pm s' = Some {| pm_type := pm_type c; pm_root := pm_root c; pm_manifest := Some m |} ∧
    configManager s' = declared_after mods (configManager s) ∧
    (∀ x, x ∈ mods → x ∈ modules (configManager s')) ∧
    configPath s = Some p ∧
    log s' = (log s ++ [WriteFile p (serialize E (configManager s'))])%list ∧
    fs s' = <[locate E p := File (Text (serialize E (configManager s')))]> files.
Proof.
  unfold addModules. intros H.
  apply bind_ok in H as ([] & s1 & Hinstall & H).
  apply install_run in Hinstall as [(c & m & files & _ & Hc & Hproc & ->)|(? & [=] & _)].
  unfold addLocalModules in H.
  rewrite (bind_step _ _ _ _ _ (declare_all_run mods _)) in H.
  destruct (configPath s) as [p|] eqn:Hp.
  2:{ rewrite saveConfig_none in H by done. discriminate. }
  erewrite saveConfig_some in H by done.
  apply write_inv in H as [(_ & _ & _ & ->)|(? & [=] & _)]. simpl.
  exists c, m, files, p. repeat split; try done.
  intros x Hx. apply declared_after_elem. by right.
Qed.

End ModulesMore.

(** ** Queries, the constructor and the package manager field *)
Section Remaining.
Context (E : Env) (root : string).

Lemma readdir_inv path (s : State) r s' :
  readdir E path s = (r, s') → s' = s.
Proof.
  unfold readdir, fs_error, throw. repeat case_match; intros ?; by simplify_eq.
Qed.

(** X17: [getExternalModuleNames] is a pure query: whatever it
    returns or throws, the disk, the log and the fields of the project
    are untouched. *)
Theorem getExternalModuleNames_readonly path (s : State) r s' :
  getExternalModuleNames E root path s = (r, s') → s' = s.
Proof.
  unfold getExternalModuleNames. intros H.
  apply bind_inv in H as [(pj & s1 & Hm & H)|(e & Hm & _)];
    apply readJSON_inv in Hm as [-> _]; [|done].
  apply bind_inv in H as [(names & s1 & Hm & H)|(e & Hm & _)];
    apply readdir_inv in Hm as ->; [|done].
  unfold lift in H. by injection H as _ <-.
Qed.

Lemma split_trailing_slash a : Path.split (a ++ "/") = (Path.split a ++ [""])%list.
Proof. change (a ++ "/") with (a ++ "/" ++ ""). by rewrite split_app. Qed.

(** X18: a trailing separator on the root changes neither the name of
    the project nor, for a root that is not empty, the directory of
    the external repositories. *)
Theorem root_trailing_slash :
  project_name (root ++ "/") = project_name root ∧
  (root ≠ "" → externalPath (root ++ "/") = externalPath root).
Proof.
  split.
  - unfold project_name, Path.basename.
    rewrite split_trailing_slash, filter_app, filter_cons_False, filter_nil by auto.
    by rewrite app_nil_r.
  - intros Hne. unfold externalPath, Path.join.
    assert (root ++ "/" ≠ "") as Hne' by (by destruct root).
    rewrite !filter_cons_True, !filter_nil by done.
    change (Path.join_with "/" [root ++ "/"; "external"])
      with ((root ++ "/") ++ "/external").
    change (Path.join_with "/" [root; "external"]) with (root ++ "/external").
    unfold Path.normalize.
    assert ((root ++ "/") ++ "/external" ≠ "") as H1 by (by destruct root).
    assert (root ++ "/external" ≠ "") as H2 by (by destruct root).
    rewrite (proj2 (String.eqb_neq _ _) H1), (proj2 (String.eqb_neq _ _) H2).
    rewrite !endsWithSlash_app by done.
    assert (Path.isAbsolute ((root ++ "/") ++ "/external") = Path.isAbsolute root) as ->
      by (by destruct root).
    assert (Path.isAbsolute (root ++ "/external") = Path.isAbsolute root) as ->
      by (by destruct root).
    assert (∀ aar, Path.normalizeString ((root ++ "/") ++ "/external") aar
                   = Path.normalizeString (root ++ "/external") aar) as Hnorm.
    { intros aar. unfold Path.normalizeString.
      change ((root ++ "/") ++ "/external") with ((root ++ "/") ++ "/" ++ "external").
      change (root ++ "/external") with (root ++ "/" ++ "external").
      rewrite !split_app, split_trailing_slash, <- app_assoc.
      by rewrite !(normalize_go_app aar [] (Path.split root)). }
    by rewrite Hnorm.
Qed.

(** X19: while the package manager is undefined (neither
    [setPackageManager] nor [load] has run), [getModule],
    [createModule], [install], [addModules] and [addLerna] throw a
    TypeError at once and change nothing. *)
Theorem package_manager_required (s : State) :
  pm s = None →
  (∀ nm, getModule root nm s = (Throw TypeError, s)) ∧
  (∀ nm, createModule E root nm s = (Throw TypeError, s)) ∧
  (∀ mods dev, install E mods dev s = (Throw TypeError, s)) ∧
  (∀ mods dev, addModules E mods dev s = (Throw TypeError, s)) ∧
  addLerna E root s = (Throw TypeError, s).
Proof.
  intros Hpm.
  assert (∀ nm, getModule root nm s = (Throw TypeError, s)) as Hget.
  { intros nm. unfold getModule, this_pm, mbind, M_bind. by rewrite Hpm. }
  assert (∀ mods dev, install E mods dev s = (Throw TypeError, s)) as Hinstall.
  { intros mods dev. unfold install, PMController_install, this_pm, mbind, M_bind.
    by rewrite Hpm. }
  split; [done|]. split; [|split; [done|split]].
  - intros nm. unfold createModule. by apply bind_throw.
  - intros mods dev. unfold addModules. by apply bind_throw.
  - unfold addLerna. apply bind_throw. apply (Hinstall ["lerna"] (Some true)).
Qed.

End Remaining.

(** ** Runs of the further properties on the demonstration project *)

(** The witness of X1: a relative root, resolved against the working
    directory. *)
Lemma init_layout_witness :
  (setPackageManager "work/app" Npm;; init demoEnv "work/app") (new_project ∅)
    = (Ok tt, demo_relative) ∧
  mapping_paths demoEnv "work/app" demo_relative =
    Some (<["@" ++ Path.basename "work/app" ++ "/*/typings" := JArr [JStr "*/typings"]]>
         (<["@" ++ Path.basename "work/app" ++ "/*" := JArr [JStr "*/src"]]> ∅)).
Proof.
  assert ((setPackageManager "work/app" Npm;; init demoEnv "work/app") (new_project ∅)
          = (Ok tt, demo_relative)) as Hrun by (vm_compute; reflexivity).
  split; [exact Hrun|].
  exact (proj2 (proj2 (proj2 (init_layout demoEnv "work/app" Npm _ _ Hrun)))).
Defined.

(** The witness of X2: a declaration made before [init] is gone. *)
Lemma init_resets_declared_witness :
  modules (configManager demo_stale) = ["@proj/old"] ∧
  init demoEnv "/tmp/proj" demo_stale = (Ok tt, snd (init demoEnv "/tmp/proj" demo_stale)) ∧
  modules (configManager (snd (init demoEnv "/tmp/proj" demo_stale))) = [].
Proof.
  assert (init demoEnv "/tmp/proj" demo_stale
          = (Ok tt, snd (init demoEnv "/tmp/proj" demo_stale))) as Hrun
    by (vm_compute; reflexivity).
  split; [reflexivity|]. split; [exact Hrun|].
  exact (proj1 (init_resets_declared demoEnv "/tmp/proj" _ _ Hrun)).
Defined.

(** The witness of X3: the initialized project. *)
Lemma init_existing_project_witness :
  pathExists demoEnv "/tmp/proj" demo_initialized = (Ok true, demo_initialized) ∧
  pathExists demoEnv (resolve demoEnv ["/tmp/proj"; "modules"]) demo_initialized
    = (Ok true, demo_initialized) ∧
  init demoEnv "/tmp/proj" demo_initialized
  = (Throw (FileSystemError EEXIST (resolve demoEnv ["/tmp/proj"; "modules"])),
     set_configManager {| modules := [] |} demo_initialized).
Proof.
  assert (pathExists demoEnv "/tmp/proj" demo_initialized = (Ok true, demo_initialized))
    as H1 by (vm_compute; reflexivity).
  assert (pathExists demoEnv (resolve demoEnv ["/tmp/proj"; "modules"]) demo_initialized
          = (Ok true, demo_initialized)) as H2 by (vm_compute; reflexivity).
  split; [exact H1|]. split; [exact H2|].
  exact (proj1 (init_existing_project demoEnv "/tmp/proj" demo_initialized H1 H2)).
Defined.

(** The witness of X4. *)
Lemma init_twice_witness :
  init demoEnv "/tmp/proj" demo_configured = (Ok tt, demo_initialized) ∧
  init demoEnv "/tmp/proj" demo_initialized
  = (Throw (FileSystemError EEXIST (resolve demoEnv ["/tmp/proj"; "modules"])),
     demo_initialized).
Proof.
  assert (init demoEnv "/tmp/proj" demo_configured = (Ok tt, demo_initialized))
    as Hrun by (vm_compute; reflexivity).
  split; [exact Hrun|].
  exact (init_twice demoEnv "/tmp/proj" _ _ Hrun).
Defined.

(** The witness of X5: [init] on a new [ProjectManager]. *)
Lemma init_without_package_manager_witness :
  pm (new_project ∅) = None ∧
  init demoEnv "/tmp/proj" (new_project ∅)
    = (Throw TypeError, snd (init demoEnv "/tmp/proj" (new_project ∅))) ∧
  ∃ e, Throw TypeError = Throw (A := unit) e.
Proof.
  assert (init demoEnv "/tmp/proj" (new_project ∅)
          = (Throw TypeError, snd (init demoEnv "/tmp/proj" (new_project ∅)))) as Hrun
    by (vm_compute; reflexivity).
  split; [reflexivity|]. split; [exact Hrun|].
  exact (proj1 (init_without_package_manager demoEnv "/tmp/proj" (new_project ∅)
                  _ _ eq_refl Hrun)).
Defined.

(** The witness of X6: the path-mapping file is missing. *)
Lemma addExternalRepo_fails_before_write_witness :
  file_doc demoEnv demo_unmapped (tsconfigPath demoEnv "/tmp/proj") = None ∧
  ∃ e, addExternalRepo demoEnv "/tmp/proj" "repo" demo_unmapped = (Throw e, demo_unmapped).
Proof.
  assert (file_doc demoEnv demo_unmapped (tsconfigPath demoEnv "/tmp/proj") = None)
    as Hmissing by (vm_compute; reflexivity).
  split; [exact Hmissing|].
  exact (addExternalRepo_fails_before_write demoEnv "/tmp/proj" "repo" demo_unmapped
           (or_intror (or_introl Hmissing))).
Defined.

(** The witness of X7: the path-mapping file holds [{}]. *)
Lemma addExternalRepo_no_compilerOptions_witness :
  file_doc demoEnv demo_bare (external_manifest "/tmp/proj" "repo")
    = Some (JObj (<["name" := JStr "ext"]> ∅)) ∧
  file_doc demoEnv demo_bare (tsconfigPath demoEnv "/tmp/proj") = Some (JObj ∅) ∧
  JS.get "compilerOptions" (JObj ∅) = None ∧
  addExternalRepo demoEnv "/tmp/proj" "repo" demo_bare = (Throw TypeError, demo_bare).
Proof.
  assert (file_doc demoEnv demo_bare (external_manifest "/tmp/proj" "repo")
          = Some (JObj (<["name" := JStr "ext"]> ∅))) as H1 by (vm_compute; reflexivity).
  assert (file_doc demoEnv demo_bare (tsconfigPath demoEnv "/tmp/proj") = Some (JObj ∅))
    as H2 by (vm_compute; reflexivity).
  assert (JS.get "compilerOptions" (JObj ∅) = None) as H3 by reflexivity.
  repeat (split; [assumption|]).
  exact (addExternalRepo_no_compilerOptions demoEnv "/tmp/proj" "repo" demo_bare
           _ _ H1 H2 H3).
Defined.

(** The witness of X8: the initial document keeps its [baseUrl]. *)
Lemma addExternalRepo_keeps_document_witness :
  file_doc demoEnv demo_linked (tsconfigPath demoEnv "/tmp/proj")
    = Some (initial_tsconfig "/tmp/proj") ∧
  JS.get "compilerOptions" (initial_tsconfig "/tmp/proj") = Some (JObj demo_options) ∧
  (∀ str, demo_options !! "paths" ≠ Some (JStr str)) ∧
  addExternalRepo demoEnv "/tmp/proj" "repo" demo_linked = (Ok tt, demo_relinked) ∧
  ∃ tsconfig' options',
    file_doc demoEnv demo_relinked (tsconfigPath demoEnv "/tmp/proj") = Some tsconfig' ∧
    JS.get "compilerOptions" tsconfig' = Some (JObj options') ∧
    options' !! "baseUrl" = demo_options !! "baseUrl".
Proof.
  assert (file_doc demoEnv demo_linked (tsconfigPath demoEnv "/tmp/proj")
          = Some (initial_tsconfig "/tmp/proj")) as H1 by (vm_compute; reflexivity).
  assert (JS.get "compilerOptions" (initial_tsconfig "/tmp/proj")
          = Some (JObj demo_options)) as H2 by (vm_compute; reflexivity).
  assert (∀ str, demo_options !! "paths" ≠ Some (JStr str)) as H3.
  { intros str Hstr. vm_compute in Hstr. discriminate. }
  assert (addExternalRepo demoEnv "/tmp/proj" "repo" demo_linked = (Ok tt, demo_relinked))
    as H4 by (vm_compute; reflexivity).
  repeat (split; [assumption|]).
  destruct (addExternalRepo_keeps_document demoEnv "/tmp/proj" "repo" demo_linked
              demo_relinked _ _ H1 H2 H3 H4)
    as (pj & ts' & options' & _ & Hts' & Hco & _ & Hkeep & _).
  exists ts', options'. split; [exact Hts'|]. split; [exact Hco|].
  apply Hkeep. discriminate.
Defined.

(** The witness of X9: a linked manifest that is [{}]. *)
Lemma addExternalRepo_nameless_manifest_witness :
  file_doc demoEnv demo_nameless (external_manifest "/tmp/proj" "repo") = Some (JObj ∅) ∧
  JS.get "name" (JObj ∅) = None ∧
  mapping_paths demoEnv "/tmp/proj" demo_nameless = Some demo_paths ∧
  addExternalRepo demoEnv "/tmp/proj" "repo" demo_nameless
    = (Ok tt, snd (addExternalRepo demoEnv "/tmp/proj" "repo" demo_nameless)) ∧
  mapping_paths demoEnv "/tmp/proj"
    (snd (addExternalRepo demoEnv "/tmp/proj" "repo" demo_nameless)) =
    Some (<["@undefined/*/typings" :=
              JArr [JStr ("../external/" ++ "repo" ++ "/modules/*/typings")]]>
         (<["@undefined/*" :=
              JArr [JStr ("../external/" ++ "repo" ++ "/modules/*/src")]]> demo_paths)).
Proof.
  assert (file_doc demoEnv demo_nameless (external_manifest "/tmp/proj" "repo")
          = Some (JObj ∅)) as H1 by (vm_compute; reflexivity).
  assert (JS.get "name" (JObj ∅) = None) as H2 by reflexivity.
  assert (mapping_paths demoEnv "/tmp/proj" demo_nameless = Some demo_paths)
    as H3 by (vm_compute; reflexivity).
  assert (addExternalRepo demoEnv "/tmp/proj" "repo" demo_nameless
          = (Ok tt, snd (addExternalRepo demoEnv "/tmp/proj" "repo" demo_nameless)))
    as H4 by (vm_compute; reflexivity).
  repeat (split; [assumption|]).
  exact (addExternalRepo_nameless_manifest demoEnv "/tmp/proj" "repo" demo_nameless
           _ _ demo_paths H1 H2 H3 H4).
Defined.

(** The witness of X10. *)
Lemma addExternalRepo_twice_witness :
  addExternalRepo demoEnv "/tmp/proj" "repo" demo_linked = (Ok tt, demo_relinked) ∧
  ∃ s2, addExternalRepo demoEnv "/tmp/proj" "repo" demo_relinked = (Ok tt, s2) ∧
        fs s2 = fs demo_relinked ∧
        mapping_paths demoEnv "/tmp/proj" s2 = mapping_paths demoEnv "/tmp/proj" demo_relinked.
Proof.
  assert (addExternalRepo demoEnv "/tmp/proj" "repo" demo_linked = (Ok tt, demo_relinked))
    as Hrun by (vm_compute; reflexivity).
  split; [exact Hrun|].
  exact (addExternalRepo_twice demoEnv "/tmp/proj" "repo" demo_linked demo_relinked Hrun).
Defined.

(** The witness of X11. *)
Lemma addExternalRepo_only_mapping_file_witness :
  addExternalRepo demoEnv "/tmp/proj" "repo" demo_linked = (Ok tt, demo_relinked) ∧
  ∀ loc, loc ≠ locate demoEnv (tsconfigPath demoEnv "/tmp/proj") →
         fs demo_relinked !! loc = fs demo_linked !! loc.
Proof.
  assert (addExternalRepo demoEnv "/tmp/proj" "repo" demo_linked = (Ok tt, demo_relinked))
    as Hrun by (vm_compute; reflexivity).
  split; [exact Hrun|].
  exact (proj1 (addExternalRepo_only_mapping_file demoEnv "/tmp/proj" "repo"
                  demo_linked demo_relinked Hrun)).
Defined.

(** The witness of X12: [compilerOptions] is [[]]. *)
Lemma addExternalRepo_array_options_witness :
  file_doc demoEnv demo_array (tsconfigPath demoEnv "/tmp/proj") = Some demo_array_doc ∧
  JS.get "compilerOptions" demo_array_doc = Some (JArr []) ∧
  addExternalRepo demoEnv "/tmp/proj" "repo" demo_array
    = (Ok tt, snd (addExternalRepo demoEnv "/tmp/proj" "repo" demo_array)) ∧
  file_doc demoEnv (snd (addExternalRepo demoEnv "/tmp/proj" "repo" demo_array))
    (tsconfigPath demoEnv "/tmp/proj") = Some demo_array_doc.
Proof.
  assert (file_doc demoEnv demo_array (tsconfigPath demoEnv "/tmp/proj")
          = Some demo_array_doc) as H1 by (vm_compute; reflexivity).
  assert (JS.get "compilerOptions" demo_array_doc = Some (JArr [])) as H2
    by (vm_compute; reflexivity).
  assert (addExternalRepo demoEnv "/tmp/proj" "repo" demo_array
          = (Ok tt, snd (addExternalRepo demoEnv "/tmp/proj" "repo" demo_array)))
    as H3 by (vm_compute; reflexivity).
  repeat (split; [assumption|]).
  exact (proj1 (addExternalRepo_array_options demoEnv "/tmp/proj" "repo" demo_array
                  _ _ [] H1 H2 H3)).
Defined.

(** The witness of X13: a batch that repeats a name. *)
Lemma addLocalModules_declares_witness :
  let s' := snd (addLocalModules demoEnv ["@proj/a"; "@proj/a"; "@proj/b"]
                   demo_initialized) in
  addLocalModules demoEnv ["@proj/a"; "@proj/a"; "@proj/b"] demo_initialized
    = (Ok tt, s') ∧
  modules (configManager s') = ["@proj/a"; "@proj/b"] ∧
  ∀ m, m ∈ modules (configManager s')
       ↔ m ∈ modules (configManager demo_initialized)
         ∨ m ∈ ["@proj/a"; "@proj/a"; "@proj/b"].
Proof.
  intros s'.
  assert (addLocalModules demoEnv ["@proj/a"; "@proj/a"; "@proj/b"] demo_initialized
          = (Ok tt, s')) as Hrun by (vm_compute; reflexivity).
  split; [exact Hrun|]. split; [vm_compute; reflexivity|].
  exact (proj1 (addLocalModules_declares demoEnv _ _ _ Hrun)).
Defined.

(** The witness of X14: [createModule] before [init] or [load]. *)
Lemma createModule_unsaved_witness :
  let c := createPMController Yarn "/tmp/proj" in
  let m := {| project_root := "/tmp/proj"; module_name := "core";
              module_pm := pm_type c |} in
  let s1 := snd (createModule demoEnv "/tmp/proj" "core" demo_configured) in
  pm demo_configured = Some c ∧
  module_process demoEnv m (fs demo_configured) = Some (fs demo_configured) ∧
  (fullName m ∉ modules (configManager demo_configured)) ∧
  createModule demoEnv "/tmp/proj" "core" demo_configured = (Throw TypeError, s1) ∧
  modules (configManager s1)
    = (modules (configManager demo_configured) ++ [fullName m])%list.
Proof.
  intros c m s1.
  assert (pm demo_configured = Some c) as H1 by reflexivity.
  assert (module_process demoEnv m (fs demo_configured) = Some (fs demo_configured))
    as H2 by reflexivity.
  assert (fullName m ∉ modules (configManager demo_configured)) as H3
    by (vm_compute; apply not_elem_of_nil).
  assert (createModule demoEnv "/tmp/proj" "core" demo_configured = (Throw TypeError, s1))
    as H4 by (vm_compute; reflexivity).
  repeat (split; [assumption|]).
  exact (proj1 (proj2 (createModule_unsaved demoEnv "/tmp/proj" "core" demo_configured
                         c _ _ _ H1 H2 H3 H4))).
Defined.

(** The witness of X15. *)
Lemma addModules_completes_witness :
  let s' := snd (addModules demoEnv ["left-pad"] None demo_initialized) in
  addModules demoEnv ["left-pad"] None demo_initialized = (Ok tt, s') ∧
  ∀ x, x ∈ ["left-pad"] → x ∈ modules (configManager s').
Proof.
  intros s'.
  assert (addModules demoEnv ["left-pad"] None demo_initialized = (Ok tt, s')) as Hrun
    by (vm_compute; reflexivity).
  split; [exact Hrun|].
  destruct (addModules_completes demoEnv _ _ _ _ Hrun)
    as (c & m & files & p & _ & _ & _ & _ & Hall & _).
  exact Hall.
Defined.

(** The witness of X17. *)
Lemma getExternalModuleNames_readonly_witness :
  getExternalModuleNames demoEnv "/tmp/proj" "repo" demo_linked
    = (Ok ["@ext/core"; "@ext/README.md"],
       snd (getExternalModuleNames demoEnv "/tmp/proj" "repo" demo_linked)) ∧
  snd (getExternalModuleNames demoEnv "/tmp/proj" "repo" demo_linked) = demo_linked.
Proof.
  assert (getExternalModuleNames demoEnv "/tmp/proj" "repo" demo_linked
          = (Ok ["@ext/core"; "@ext/README.md"],
             snd (getExternalModuleNames demoEnv "/tmp/proj" "repo" demo_linked)))
    as Hrun by (vm_compute; reflexivity).
  split; [exact Hrun|].
  exact (getExternalModuleNames_readonly demoEnv "/tmp/proj" "repo" demo_linked _ _ Hrun).
Defined.

(** The witness of X18. *)
Lemma root_trailing_slash_witness :
  "/tmp/proj" ≠ "" ∧ externalPath ("/tmp/proj" ++ "/") = externalPath "/tmp/proj".
Proof.
  assert ("/tmp/proj" ≠ "") as H by discriminate.
  split; [exact H|].
  exact (proj2 (root_trailing_slash "/tmp/proj") H).
Defined.

(** The witness of X19. *)
Lemma package_manager_required_witness :
  pm (new_project ∅) = None ∧
  addLerna demoEnv "/tmp/proj" (new_project ∅) = (Throw TypeError, new_project ∅).
Proof.
  split; [reflexivity|].
  exact (proj2 (proj2 (proj2 (proj2
           (package_manager_required demoEnv "/tmp/proj" (new_project ∅) eq_refl))))).
Defined.
